(** * Construction-plot placement engine and settlement growth rules

    A shallow embedding of [construction_plot.py] (class [ConstructionPlot],
    on the class [Plot] of [build_area.py]), of
    [src/simulation/settlement.py] (class [Settlement]) and of
    [utils/structure.py] (class [Structure]), with the statements that were
    checked against them.  The placement search that [Settlement] calls is
    not part of these files; it is written after the specification, in
    [PlacementSearch].

    Python integers are [Z]; Python lists are [list]; the [set] of occupied
    coordinates is a [gset]; a [dict] whose iteration order is observed is an
    association list in insertion order.  Exceptions are explicit: a call
    returns [Ok v] or [Raise e].  A score is a Python [float]: a rational
    ([Q]) that is a binary64 number, every [*] and [+] that makes one being
    rounded to the nearest ([binary64]); comparisons of floats are then
    comparisons of rationals. *)

From Stdlib Require Import ZArith QArith Lia.
From stdpp Require Import gmap strings list sorting.

Local Open Scope Z_scope.

(** ** Python runtime pieces used by the two classes *)
Module Py.

Inductive exn : Type :=
| IndexError
| KeyError
| TypeError
| ValueError.

Inductive result (A : Type) : Type :=
| Ok (a : A)
| Raise (e : exn).
Arguments Ok {A} a.
Arguments Raise {A} e.

Definition bind {A B : Type} (r : result A) (k : A -> result B) : result B :=
  match r with
  | Ok a => k a
  | Raise e => Raise e
  end.

(** [range(a, b)]: the integers [a, a+1, ..., b-1], empty when [b <= a]. *)
Definition range (a b : Z) : list Z := seqZ a (b - a).

(** [enumerate(l)]. *)
Definition enumerate {A : Type} (l : list A) : list (Z * A) :=
  zip (seqZ 0 (Z.of_nat (length l))) l.

(** [len(l)]. *)
Definition len {A : Type} (l : list A) : Z := Z.of_nat (length l).

(** [l[i]] on a sequence of length [n]: indices [-n <= i < n] are valid,
    a negative one counts from the end, any other raises [IndexError]. *)
Definition getitem {A : Type} (l : list A) (i : Z) : result A :=
  let n := len l in
  if (0 <=? i) && (i <? n) then
    match l !! Z.to_nat i with Some a => Ok a | None => Raise IndexError end
  else if (- n <=? i) && (i <? 0) then
    match l !! Z.to_nat (n + i) with Some a => Ok a | None => Raise IndexError end
  else Raise IndexError.

(** [a[i, j]] on a two-dimensional numpy array (a list of rows). *)
Definition getitem2 {A : Type} (a : list (list A)) (i j : Z) : result A :=
  bind (getitem a i) (fun row => getitem row j).

(** Every [k]-th element of [l], starting with the first ([k >= 1]). *)
Fixpoint every_nth_from {A : Type} (skip : nat) (k : nat) (l : list A) : list A :=
  match l with
  | [] => []
  | a :: l' =>
      match skip with
      | O => a :: every_nth_from (Nat.pred k) k l'
      | S s => every_nth_from s k l'
      end
  end.

(** [l[::k]]: step [0] raises [ValueError]; a negative step walks the list
    from its last element backwards. *)
Definition slice_step {A : Type} (l : list A) (k : Z) : result (list A) :=
  if k =? 0 then Raise ValueError
  else if 0 <? k then Ok (every_nth_from O (Z.to_nat k) l)
  else Ok (every_nth_from O (Z.to_nat (- k)) (rev l)).

(** [d[k] = v] on a dict kept in insertion order: an existing key keeps its
    place, a new key goes last. *)
Fixpoint dict_set {K V : Type} `{EqDecision K} (k : K) (v : V)
  (d : list (K * V)) : list (K * V) :=
  match d with
  | [] => [(k, v)]
  | (k', v') :: d' =>
      if decide (k = k') then (k, v) :: d' else (k', v') :: dict_set k v d'
  end.

(** [list(d.keys())]. *)
Definition keys {K V : Type} (d : list (K * V)) : list K := d.*1.

(** [l.pop()]: removes and returns the last element. *)
Definition pop {A : Type} (l : list A) : option (list A * A) :=
  match rev l with
  | [] => None
  | a :: r => Some (rev r, a)
  end.

(** [l.append(a)]. *)
Definition append {A : Type} (l : list A) (a : A) : list A := l ++ [a].

(** The [float] nearest to a rational: 53 significant bits, a tie going to
    the even significand.  The result of a float operation is the rounding
    of its exact result; the literal [.1] is [binary64 (1 # 10)].  Overflow
    and subnormal numbers are out of the model. *)
Definition binary64 (q : Q) : Q :=
  let n := Qnum q in
  let d := Zpos (Qden q) in
  if n =? 0 then 0%Q
  else
    let a := Z.abs n in
    let scaled (e : Z) : Z * Z :=
      if 0 <=? e then (a, d * 2 ^ e) else (a * 2 ^ (- e), d) in
    let e0 := Z.log2 a - Z.log2 d - 52 in
    let e :=
      let '(sn, sd) := scaled e0 in
      if sn <? sd * 2 ^ 52 then e0 - 1
      else if sd * 2 ^ 53 <=? sn then e0 + 1
      else e0 in
    let '(sn, sd) := scaled e in
    let m := sn / sd in
    let r := sn mod sd in
    let m :=
      if 2 * r <? sd then m
      else if sd <? 2 * r then m + 1
      else if Z.even m then m else m + 1 in
    let m := Z.sgn n * m in
    if 0 <=? e then inject_Z (m * 2 ^ e) else Qmake m (Z.to_pos (2 ^ (- e))).

End Py.

Import Py.

(** ** [utils]: coordinates and blocks *)
Module Utils.

(** [Coordinates(x, y, z)]: an integer triple, hashable and compared by
    value (the fields [x], [y], [z] of the class). *)
Record Coordinates : Type := mkCoordinates { coord_x : Z; coord_y : Z; coord_z : Z }.

#[global] Instance Coordinates_eq_dec : EqDecision Coordinates.
Proof. solve_decision. Defined.

#[global] Instance Coordinates_countable : Countable Coordinates.
Proof.
  refine (inj_countable' (fun c => (coord_x c, coord_y c, coord_z c))
            (fun t => mkCoordinates t.1.1 t.1.2 t.2) _).
  by intros [].
Defined.

(** Modelled from the spec: the class [Coordinates] is imported from
    [utils] and is not under src/; [shift] is its translation and [with_y]
    its vertical projection. *)
Definition shift (c : Coordinates) (dx dy dz : Z) : Coordinates :=
  mkCoordinates (coord_x c + dx) (coord_y c + dy) (coord_z c + dz).

Definition with_y (c : Coordinates) (v : Z) : Coordinates :=
  mkCoordinates (coord_x c) v (coord_z c).

(** [Block(name, coordinates)]. *)
Record Block : Type := mkBlock { block_name : string; block_coordinates : Coordinates }.

(** Does [pat] occur in [s]?  ([pat in s] on Python strings.) *)
Fixpoint str_contains (pat s : string) : bool :=
  String.prefix pat s ||
  match s with
  | EmptyString => false
  | String _ s' => str_contains pat s'
  end.

(** Modelled from the spec: [Block.is_one_of] is not under src/; a block is
    one of the given patterns when its material name contains one of them
    (the candidate pool keeps the columns "whose ground material is not
    water"). *)
Definition is_one_of (b : Block) (patterns : list string) : bool :=
  existsb (fun pat => str_contains pat (block_name b)) patterns.

End Utils.

Import Utils.

(** ** [build_area.Plot] and [construction_plot.ConstructionPlot] *)
Module Plot.

(** The world slice behind a plot (an external collaborator): the block
    found at a position, and the "MOTION_BLOCKING_NO_LEAVES" heightmap
    already cut to the plot, as [Plot.get_heightmap] returns it: one row
    per x, one entry per z. *)
Record World : Type := mkWorld {
  getBlockAt : Z -> Z -> Z -> string;
  get_heightmap : list (list Z)
}.

(** [Plot.get_block_at]. *)
Definition get_block_at (w : World) (x y z : Z) : Block :=
  mkBlock (getBlockAt w x y z) (mkCoordinates x y z).

(** The fields of a [ConstructionPlot]: those of [Plot.__init__]
    ([start], [size]) and its own.  [foundation_blocks] is a dict whose
    keys are later listed in insertion order. *)
Record ConstructionPlot : Type := mkConstructionPlot {
  start : Coordinates;
  size : Z * Z;
  construction_roof : Z;
  occupied_coords : gset Coordinates;
  _construction_heightmap : option (list (list Z));
  foundation_blocks : list (Coordinates * Block)
}.

(** [ConstructionPlot(x, z, size, construction_roof)]. *)
Definition init (x z : Z) (sz : Z * Z) (roof : Z) : ConstructionPlot :=
  mkConstructionPlot (mkCoordinates x 0 z) sz roof ∅ None [].

(** [self.end] and [self.center], fixed by [Plot.__init__]. *)
Definition plot_end (p : ConstructionPlot) : Coordinates :=
  mkCoordinates (coord_x (start p) + (size p).1) 255 (coord_z (start p) + (size p).2).

Definition center (p : ConstructionPlot) : Z * Z :=
  (coord_x (start p) + (size p).1 `div` 2, coord_z (start p) + (size p).2 `div` 2).

(** [c in p], the membership test of [_get_score].  The class [Plot] of
    [build_area.py] defines [__init__], [get_build_area], [update],
    [get_block_at], [get_heightmap], [get_blocks_at_surface] and
    [remove_trees], and [ConstructionPlot] adds none of [__contains__],
    [__iter__] and [__getitem__]: the operator [in] has nothing to call and
    raises [TypeError], whatever the plot and the coordinate. *)
Definition contains (p : ConstructionPlot) (c : Coordinates) : result bool :=
  Raise TypeError.

Definition _WORST_SCORE : Z := 100000000.

Definition with_occupied (p : ConstructionPlot) (o : gset Coordinates) : ConstructionPlot :=
  mkConstructionPlot (start p) (size p) (construction_roof p) o
    (_construction_heightmap p) (foundation_blocks p).

Definition with_foundation (p : ConstructionPlot) (hm : list (list Z))
  (fb : list (Coordinates * Block)) : ConstructionPlot :=
  mkConstructionPlot (start p) (size p) (construction_roof p) (occupied_coords p)
    (Some hm) fb.

(** One pass of the inner loop body of [_build_foundation_blocks]. *)
Definition foundation_step (w : World) (p : ConstructionPlot) (x : Z)
  (surface_blocks : list (Coordinates * Block)) (zh : Z * Z)
  : list (Coordinates * Block) :=
  let '(z, h) := zh in
  let coordinates := mkCoordinates (coord_x (start p) + x) (h - 1) (coord_z (start p) + z) in
  if decide (coordinates ∈ occupied_coords p) then surface_blocks
  else
    let block := get_block_at w (coord_x coordinates) (coord_y coordinates) (coord_z coordinates) in
    if negb (is_one_of block ["water"%string])
       && (coord_y (block_coordinates block) <? construction_roof p)
    then dict_set coordinates
           (get_block_at w (coord_x coordinates) (coord_y coordinates) (coord_z coordinates))
           surface_blocks
    else surface_blocks.

(** [surface_blocks] after the two nested loops over the heightmap. *)
Definition surface_blocks_of (w : World) (p : ConstructionPlot) (hm : list (list Z))
  : list (Coordinates * Block) :=
  foldl (fun acc xr => foldl (foundation_step w p xr.1) acc (enumerate xr.2))
    [] (enumerate hm).

Definition _build_foundation_blocks (w : World) (p : ConstructionPlot) : ConstructionPlot :=
  let hm := get_heightmap w in
  with_foundation p hm (surface_blocks_of w p hm).

(** [occupy_area]: the two nested [range] loops, adding one projected
    coordinate per pass. *)
Definition occupy_area (p : ConstructionPlot) (origin : Coordinates) (sz : Z * Z)
  (padding : Z) : ConstructionPlot :=
  with_occupied p
    (foldl (fun occ x =>
              foldl (fun occ z =>
                       occ ∪ {[ with_y (shift origin (sz.1 + x) 0 (sz.2 + z)) 0 ]})
                occ (range (- padding) (sz.2 + padding)))
       (occupied_coords p) (range (- padding) (sz.1 + padding))).

(** [_get_y(x, z)]: the heightmap entry at the position relative to the
    plot's start; numpy indexing, [TypeError] while no heightmap is set. *)
Definition _get_y (p : ConstructionPlot) (x z : Z) : result Z :=
  let relative_x := x - coord_x (start p) in
  let relative_z := z - coord_z (start p) in
  match _construction_heightmap p with
  | Some hm => getitem2 hm relative_x relative_z
  | None => Raise TypeError
  end.

(** The heightmap of a plot is a two-dimensional array of the plot's
    shape: [size[0]] rows of [size[1]] entries. *)
Definition heightmap_shape (p : ConstructionPlot) (hm : list (list Z)) : Prop :=
  len hm = (size p).1 /\ Forall (fun row => len row = (size p).2) hm.

Definition Qltb (a b : Q) : bool := negb (Qle_bool b a).

(** The cells visited by [for x in range(w): for z in range(d)], in order. *)
Definition footprint (sz : Z * Z) : list (Z * Z) :=
  x ← range 0 sz.1; z ← range 0 sz.2; [(x, z)].

Section Scoring.

(** [Coordinates.distance] is not under src/; the planar distance between
    two coordinates, a number as Python holds it (an [int] or a [float]), is
    a parameter of the scorer. *)
Variable distance : Coordinates -> Coordinates -> Q.

(** The body of the two loops of [_get_score], run over the remaining
    cells with the score accumulated so far.  The [try] catches [KeyError]
    and nothing else: any other exception of the membership test or of
    [_get_y] leaves [_get_score]. *)
Fixpoint score_cells (p : ConstructionPlot) (coord : Coordinates)
  (cells : list (Z * Z)) (score : Q) : result Q :=
  match cells with
  | [] => Ok score
  | (x, z) :: rest =>
      let current := shift coord x 0 z in
      match contains p current with
      | Ok true =>
          match _get_y p (coord_x current) (coord_y current) with
          | Ok h =>
              score_cells p coord rest
                (binary64 (score + inject_Z (Z.abs (coord_y coord - h))))
          | Raise KeyError => Ok (inject_Z _WORST_SCORE)
          | Raise e => Raise e
          end
      | Ok false => Ok (inject_Z _WORST_SCORE)
      | Raise KeyError => Ok (inject_Z _WORST_SCORE)
      | Raise e => Raise e
      end
  end.

Definition _get_score (p : ConstructionPlot) (coord : Coordinates) (sz : Z * Z)
  : result Q :=
  let score :=
    binary64
      (distance (with_y coord 0) (mkCoordinates (center p).1 0 (center p).2)
       * binary64 (1 # 10)) in
  score_cells p coord (footprint sz) score.

(** The minimum-tracking loop of [get_construction_spot]: [min_score] is
    the integer [_WORST_SCORE] at first and a float afterwards, [<] compares
    the two numbers exactly. *)
Fixpoint best_of (p : ConstructionPlot) (sz : Z * Z) (coords : list Coordinates)
  (best_spot : Coordinates) (min_score : Q) : result Coordinates :=
  match coords with
  | [] => Ok best_spot
  | coord :: rest =>
      match _get_score p coord sz with
      | Ok coord_score =>
          if Qltb coord_score min_score
          then best_of p sz rest coord coord_score
          else best_of p sz rest best_spot min_score
      | Raise e => Raise e
      end
  end.

(** [get_construction_spot(size, speed)]: the plot after the rebuild of
    the foundation pool, and the coordinate returned or the exception
    raised.  The debug output and the key press are not modelled. *)
Definition get_construction_spot (w : World) (p : ConstructionPlot) (sz : Z * Z)
  (speed : option Z) : ConstructionPlot * result Coordinates :=
  let speed := match speed with None => 1 | Some s => s end in
  let p' := _build_foundation_blocks w p in
  let keys_list := keys (foundation_blocks p') in
  let min_score := inject_Z _WORST_SCORE in
  (p',
   bind (getitem keys_list 0) (fun best_spot =>
   bind (slice_step keys_list speed) (fun visited =>
   best_of p' sz visited best_spot min_score))).

End Scoring.

End Plot.

Import Plot.

(** ** [simulation.settlement.Settlement] *)
Module Simulation.

(** The building classes told apart by [isinstance] in [Settlement.build]. *)
Inductive BuildingKind : Type :=
| Regular
| Graveyard
| WeddingTotem.

(** [building.properties], as far as [Settlement] reads it. *)
Module Props.
Record BuildingProperties : Type := mkProperties {
  number_of_beds : Z;
  workers : Z;
  food_production : Z;
  is_extension : bool;
  padding : Z
}.
End Props.

(** A [Building] object.  Villagers are Python objects shared between the
    settlement's roster and the buildings' rosters: a villager is referred
    to by its identity [vid], a building by its position in the chronology. *)
Record Building : Type := mkBuilding {
  name : string;
  kind : BuildingKind;
  properties : Props.BuildingProperties;
  rotation : Z;
  entrance : Coordinates;
  building_inhabitants : list nat;
  building_workers : list nat
}.

Record Villager : Type := mkVillager {
  vid : nat;
  birth_year : Z;
  house : option nat;
  work_place : option nat
}.

(** Modelled from the spec: the [Building] class is not under src/; a
    building has free beds while its roster of inhabitants is shorter than
    its number of beds, and offers work while its roster of workers is
    shorter than its worker slots. *)
Definition has_empty_beds (b : Building) : bool :=
  len (building_inhabitants b) <? Props.number_of_beds (properties b).

(** Modelled from the spec: [Building.can_offer_work], not under src/. *)
Definition can_offer_work (b : Building) : bool :=
  len (building_workers b) <? Props.workers (properties b).

Definition with_building_inhabitants (b : Building) (l : list nat) : Building :=
  mkBuilding (name b) (kind b) (properties b) (rotation b) (entrance b) l (building_workers b).

Definition with_building_workers (b : Building) (l : list nat) : Building :=
  mkBuilding (name b) (kind b) (properties b) (rotation b) (entrance b) (building_inhabitants b) l.

Definition with_house (h : option nat) (v : Villager) : Villager :=
  mkVillager (vid v) (birth_year v) h (work_place v).

Definition with_work_place (h : option nat) (v : Villager) : Villager :=
  mkVillager (vid v) (birth_year v) (house v) h.

(** The fields of a [Settlement].  [plot] is the city plot; its class is
    not under src/, the plot engine under src/ ([ConstructionPlot]) stands
    for it.  [buildings] is [__buildings] (building references per name),
    [counter] is [__counter]; [next_vid] is the identity the next
    [Villager(...)] object gets. *)
Record Settlement : Type := mkSettlement {
  plot : ConstructionPlot;
  chronology : list Building;
  buildings : gmap string (list nat);
  counter : gmap string Z;
  inhabitants : list Villager;
  food_available : Z;
  graveyard : option nat;
  wedding_totem : option nat;
  next_vid : nat
}.

Definition with_plot (s : Settlement) (p : ConstructionPlot) : Settlement :=
  mkSettlement p (chronology s) (buildings s) (counter s) (inhabitants s)
    (food_available s) (graveyard s) (wedding_totem s) (next_vid s).

Definition with_chronology (s : Settlement) (c : list Building) : Settlement :=
  mkSettlement (plot s) c (buildings s) (counter s) (inhabitants s)
    (food_available s) (graveyard s) (wedding_totem s) (next_vid s).

Definition with_buildings (s : Settlement) (b : gmap string (list nat)) : Settlement :=
  mkSettlement (plot s) (chronology s) b (counter s) (inhabitants s)
    (food_available s) (graveyard s) (wedding_totem s) (next_vid s).

Definition with_counter (s : Settlement) (c : gmap string Z) : Settlement :=
  mkSettlement (plot s) (chronology s) (buildings s) c (inhabitants s)
    (food_available s) (graveyard s) (wedding_totem s) (next_vid s).

Definition with_inhabitants (s : Settlement) (l : list Villager) (n : nat) : Settlement :=
  mkSettlement (plot s) (chronology s) (buildings s) (counter s) l
    (food_available s) (graveyard s) (wedding_totem s) n.

Definition with_food_available (s : Settlement) (f : Z) : Settlement :=
  mkSettlement (plot s) (chronology s) (buildings s) (counter s) (inhabitants s)
    f (graveyard s) (wedding_totem s) (next_vid s).

Definition with_monuments (s : Settlement) (g t : option nat) : Settlement :=
  mkSettlement (plot s) (chronology s) (buildings s) (counter s) (inhabitants s)
    (food_available s) g t (next_vid s).

(** [sum(...)] over a list of integers. *)
Definition sum (l : list Z) : Z := foldr Z.add 0 l.

(** The properties of the class. *)
Definition population (s : Settlement) : Z := len (inhabitants s).

Definition inactive_villagers (s : Settlement) : list Villager :=
  filter (fun v => work_place v = None) (inhabitants s).

Definition homeless_villagers (s : Settlement) : list Villager :=
  filter (fun v => house v = None) (inhabitants s).

Definition number_of_beds (s : Settlement) : Z :=
  sum ((fun b => Props.number_of_beds (properties b)) <$> chronology s).

Definition worker_number (s : Settlement) : Z :=
  sum ((fun b => len (building_workers b)) <$> chronology s).

Definition total_worker_slots (s : Settlement) : Z :=
  sum ((fun b => Props.workers (properties b)) <$> chronology s).

Definition food_production (s : Settlement) : Z :=
  sum ((fun b => Props.food_production (properties b)) <$> chronology s).

(** [[Villager(year) for _ in range(k)]], with identities from [n] on. *)
Definition newborns (year : Z) (k : Z) (n : nat) : list Villager :=
  (fun i => mkVillager i year None None) <$> seq n (Z.to_nat k).

(** [self.inhabitants.extend([Villager(year) for _ in range(k)])]. *)
Definition extend_inhabitants (s : Settlement) (year : Z) (k : Z) : Settlement :=
  with_inhabitants s (inhabitants s ++ newborns year k (next_vid s))
    (next_vid s + Z.to_nat k)%nat.

(** Modelled from the spec: [Building.add_inhabitant(villager, year)] is
    not under src/; it assigns the villager to the building: the villager
    joins the building's roster and the building becomes its house. *)
Definition add_inhabitant (s : Settlement) (house_ref : nat) (villager : nat) : Settlement :=
  with_inhabitants
    (with_chronology s
       (alter (fun b => with_building_inhabitants b (building_inhabitants b ++ [villager])) house_ref
          (chronology s)))
    ((fun v => if decide (vid v = villager) then with_house (Some house_ref) v else v)
       <$> inhabitants s)
    (next_vid s).

(** Modelled from the spec: [Building.add_worker(villager, year)], the
    same for work places. *)
Definition add_worker (s : Settlement) (work_ref : nat) (villager : nat) : Settlement :=
  with_inhabitants
    (with_chronology s
       (alter (fun b => with_building_workers b (building_workers b ++ [villager])) work_ref
          (chronology s)))
    ((fun v => if decide (vid v = villager) then with_work_place (Some work_ref) v else v)
       <$> inhabitants s)
    (next_vid s).

(** [test(building)] for the building a reference points to. *)
Definition test_at (test : Building -> bool) (chron : list Building) (ref : nat) : bool :=
  match chron !! ref with
  | Some b => test b
  | None => false
  end.

(** [[building for building in self.chronology if test(building)]], as
    references into the chronology, in chronology order. *)
Definition refs_where (test : Building -> bool) (chron : list Building) : list nat :=
  filter (fun ref => test_at test chron ref = true) (seq 0 (length chron)).

(** The [for villager in ...] loop of [__fill_houses], over the villagers
    still to visit, with the current list [available_houses]. *)
Fixpoint fill_houses_loop (villagers : list nat) (available_houses : list nat)
  (s : Settlement) : Settlement :=
  match villagers with
  | [] => s
  | villager :: rest =>
      match pop available_houses with
      | None => s
      | Some (available_houses, house_ref) =>
          let s := add_inhabitant s house_ref villager in
          let available_houses :=
            if test_at has_empty_beds (chronology s) house_ref
            then append available_houses house_ref
            else available_houses in
          fill_houses_loop rest available_houses s
      end
  end.

Definition fill_houses (s : Settlement) (year : Z) : Settlement :=
  let available_houses := refs_where has_empty_beds (chronology s) in
  fill_houses_loop (vid <$> homeless_villagers s) available_houses s.

Fixpoint fill_work_places_loop (villagers : list nat) (available_work_places : list nat)
  (s : Settlement) : Settlement :=
  match villagers with
  | [] => s
  | villager :: rest =>
      match pop available_work_places with
      | None => s
      | Some (available_work_places, work_ref) =>
          let s := add_worker s work_ref villager in
          let available_work_places :=
            if test_at can_offer_work (chronology s) work_ref
            then append available_work_places work_ref
            else available_work_places in
          fill_work_places_loop rest available_work_places s
      end
  end.

Definition fill_work_places (s : Settlement) (year : Z) : Settlement :=
  let available_work_places := refs_where can_offer_work (chronology s) in
  fill_work_places_loop (vid <$> inactive_villagers s) available_work_places s.

(** The food and birth rules of [update], before the two assignments. *)
Definition update_resources (s : Settlement) (year : Z) : Settlement :=
  let s := with_food_available s (food_available s + food_production s) in
  if population s <=? food_available s then
    let s := with_food_available s (food_available s - population s) in
    if population s <=? number_of_beds s then
      let max_children_amount :=
        Z.min (population s `div` 2) (number_of_beds s - population s) in
      let food_for_children := food_available s - population s in
      let k := Z.max 0 (Z.min food_for_children max_children_amount) in
      extend_inhabitants s year k
    else s
  else
    let s := with_food_available s (food_available s - population s) in
    let s := extend_inhabitants s year (food_available s) in
    with_food_available s 0.

(** The number of villagers [update] adds in a year: the [k] of the
    well-fed branch when there are beds enough, none otherwise. *)
Definition births (s : Settlement) : Z :=
  let food := food_available s + food_production s in
  if population s <=? food then
    if population s <=? number_of_beds s then
      Z.max 0 (Z.min (food - population s - population s)
                 (Z.min (population s `div` 2) (number_of_beds s - population s)))
    else 0
  else 0.

(** [Settlement.update(year)]. *)
Definition update (s : Settlement) (year : Z) : Settlement :=
  let s := update_resources s year in
  let s := fill_houses s year in
  fill_work_places s year.

Section Construction.

(** The plot of a single building, as [get_subplot] returns it. *)
Variable SubPlot : Type.

(** [self.plot.get_subplot(building, rotation, max_score, city_buildings)]
    is not under src/: the placement search is a parameter, giving the
    city plot after the search and the spot found, or [None]. *)
Variable get_subplot :
  ConstructionPlot -> Building -> Z -> option Z -> list Building ->
  ConstructionPlot * option SubPlot.

(** The work of [build] on the world, not under src/ (tree removal,
    foundation, placing the blocks): the city plot and the building after
    it. *)
Variable construct : ConstructionPlot -> Building -> SubPlot -> ConstructionPlot * Building.

(** [self.plot.compute_roads(start, end)], not under src/. *)
Variable compute_roads :
  ConstructionPlot -> Coordinates -> Coordinates -> ConstructionPlot * bool.

(** The [while not road_done and i < max_i] loop of [build]; [n] is the
    number of passes left, [max_i - i]. *)
Fixpoint road_loop (n : nat) (i : Z) (chron : list Building) (cp : ConstructionPlot)
  : result ConstructionPlot :=
  match n with
  | O => Ok cp
  | S n' =>
      bind (getitem chron i) (fun first =>
      bind (getitem chron (-1)) (fun last =>
      let '(cp, road_done) := compute_roads cp (entrance last) (entrance first) in
      if road_done then Ok cp else road_loop n' (i + 1) chron cp))
  end.

(** [Settlement.build(building, plot)]. *)
Definition build (s : Settlement) (building : Building) (sub : SubPlot)
  : result Settlement :=
  let ref := length (chronology s) in
  let s :=
    match kind building with
    | Graveyard => with_monuments s (Some ref) (wedding_totem s)
    | WeddingTotem => with_monuments s (graveyard s) (Some ref)
    | Regular => s
    end in
  let '(cp, building) := construct (plot s) building sub in
  let s := with_plot s cp in
  let s := with_chronology s (append (chronology s) building) in
  let s :=
    with_buildings s
      (<[name building := append (default [] (buildings s !! name building)) ref]>
         (buildings s)) in
  let n := Z.of_nat (base.size (buildings s)) in
  bind (getitem (chronology s) (-1)) (fun last =>
  if (1 <? n) && negb (Props.is_extension (properties last)) then
    bind (road_loop (Z.to_nat (n - 1)) 0 (chronology s) (plot s))
      (fun cp => Ok (with_plot s cp))
  else Ok s).

(** [Settlement.add_building(building, max_score)]: the settlement after
    the call and the boolean returned.  [build] works on the object
    [building] and appends it to the chronology, so [building.name] in the
    counter update is the name the building has after [build]: that of the
    last entry of the chronology. *)
Definition add_building (s : Settlement) (building : Building) (max_score : option Z)
  : result (Settlement * bool) :=
  let '(cp, found) :=
    get_subplot (plot s) building (rotation building) max_score (chronology s) in
  let s := with_plot s cp in
  match found with
  | None => Ok (s, false)
  | Some sub =>
      bind (build s building sub) (fun s =>
      bind (getitem (chronology s) (-1)) (fun building =>
      Ok (with_counter s
            (<[name building := default 0 (counter s !! name building) + 1]> (counter s)),
          true)))
  end.

End Construction.

End Simulation.

(** ** The placement search behind [add_building] *)
Module PlacementSearch.

Import Simulation.

Section FindSpot.

(** The Spot Scorer of the specification, "a pure function" from a
    candidate origin and a footprint size to a score, lower being better. *)
Variable score : Coordinates -> Z * Z -> Q.

(** Modelled from the spec: step 2 of the Placement Search, "iterate the
    candidate pool with the given stride ... scoring each ...; track the
    minimum", with the tie-break "first-encountered-in-iteration-order
    wins on exact score ties".  [best] is the best candidate met so far
    with its score. *)
Fixpoint track_minimum (sz : Z * Z) (visited : list Coordinates)
  (best : option (Coordinates * Q)) : option (Coordinates * Q) :=
  match visited with
  | [] => best
  | c :: rest =>
      let s := score c sz in
      match best with
      | None => track_minimum sz rest (Some (c, s))
      | Some (b, m) =>
          if Qltb s m then track_minimum sz rest (Some (c, s))
          else track_minimum sz rest best
      end
  end.

(** Modelled from the spec: [find_spot(size, stride=1, max_score=None)]
    over a candidate pool, steps 2 and 3 of the Placement Search: "return
    the coordinate with the minimum score.  If max_score is supplied and
    the minimum exceeds it, report NoSuitableSpot instead of a
    coordinate", and "an empty candidate pool must report NoSuitableSpot".
    [None] is NoSuitableSpot. *)
Definition find_spot (pool : list Coordinates) (sz : Z * Z) (stride : nat)
  (max_score : option Q) : option Coordinates :=
  match track_minimum sz (every_nth_from O stride pool) None with
  | None => None
  | Some (b, m) =>
      match max_score with
      | Some t => if Qltb t m then None else Some b
      | None => Some b
      end
  end.

(** Modelled from the spec: [CityPlot.get_subplot(building, rotation,
    max_score, city_buildings)], the search [Settlement.add_building] calls,
    is not under src/.  It is the Placement Search "for the building's
    footprint and rotation": step 1 recomputes the candidate pool (the
    method [_build_foundation_blocks] of [construction_plot.py]), the pool
    is then searched with stride 1 and the threshold given.  [footprint_of]
    is the footprint of a building under a rotation; the result is the plot
    after the search and the spot, [None] for NoSuitableSpot. *)
Definition get_subplot (w : World) (footprint_of : Building -> Z -> Z * Z)
  (p : ConstructionPlot) (building : Building) (rotation : Z)
  (max_score : option Z) (city_buildings : list Building)
  : ConstructionPlot * option Coordinates :=
  let p' := _build_foundation_blocks w p in
  (p', find_spot (keys (foundation_blocks p')) (footprint_of building rotation) 1
         (inject_Z <$> max_score)).

End FindSpot.

End PlacementSearch.


(** ** Concrete worlds used to evaluate the plot engine *)
Module Samples.

(** One planar distance that can stand for [Coordinates.distance] when the
    scorer is evaluated: the city-block distance on (x, z). *)
Definition planar_distance (a b : Coordinates) : Q :=
  inject_Z (Z.abs (coord_x a - coord_x b) + Z.abs (coord_z a - coord_z b)).

(** A world of grass with the given heightmap. *)
Definition grass_world (hm : list (list Z)) : World :=
  mkWorld (fun _ _ _ => "minecraft:grass_block"%string) hm.

(** A 5 x 5 plot starting at (-1, -1) on flat ground of height 1, so that
    every candidate sits at y = 0. *)
Definition flat5 : list (list Z) := replicate 5 (replicate 5 1).
Definition plot5 : ConstructionPlot := init (-1) (-1) (5, 5) 200.

(** A 2 x 2 plot at (0, 0) whose columns z = 0 have height 1 and whose
    columns z = 1 have height 4, with its heightmap loaded. *)
Definition ridge : list (list Z) := [[1; 4]; [1; 4]].
Definition ridge_plot : ConstructionPlot :=
  _build_foundation_blocks (grass_world ridge) (init 0 0 (2, 2) 200).

(** A 2 x 2 plot at (0, 0) on flat ground of height 1 whose columns x = 1
    are water, with its heightmap loaded. *)
Definition pond_world : World :=
  mkWorld (fun x _ _ => if x =? 1 then "minecraft:water"%string
                        else "minecraft:grass_block"%string)
    (replicate 2 (replicate 2 1)).
Definition pond_plot : ConstructionPlot :=
  _build_foundation_blocks pond_world (init 0 0 (2, 2) 200).

(** A single column of water, and a single column of grass. *)
Definition sea_world : World := mkWorld (fun _ _ _ => "minecraft:water"%string) [[1]].
Definition lawn_world : World := grass_world [[1]].
Definition plot1 : ConstructionPlot := init 0 0 (1, 1) 200.

(** Flat ground of height 64 under a 2 x 2 plot. *)
Definition plain_world : World := grass_world (replicate 2 (replicate 2 64)).

End Samples.

(** ** Concrete settlements *)
Module Towns.

Import Simulation.

Definition house_of (beds food : Z) : Building :=
  mkBuilding "house" Regular (Props.mkProperties beds 0 food false 0) 0
    (mkCoordinates 0 0 0) [] [].

(** [n] villagers without house or work, with identities [0 .. n-1]. *)
Definition villagers (n : nat) : list Villager :=
  (fun i => mkVillager i 0 None None) <$> seq 0 n.

(** Ten villagers, two houses of six beds (twelve beds), a food production
    of 4 and a food stock of 10. *)
Definition town : Settlement :=
  mkSettlement (init 0 0 (4, 4) 200) [house_of 6 4; house_of 6 0] ∅ ∅
    (villagers 10) 10 None None 10.

(** Two homeless villagers and two empty houses of two beds each. *)
Definition street : Settlement :=
  mkSettlement (init 0 0 (4, 4) 200) [house_of 2 0; house_of 2 0] ∅ ∅
    (villagers 2) 0 None None 2.

(** Three villagers, a food stock of 1 and no food production. *)
Definition hamlet : Settlement :=
  mkSettlement (init 0 0 (4, 4) 200) [house_of 4 0] ∅ ∅
    (villagers 3) 1 None None 3.

(** A scorer and a footprint for these settlements: the city-block
    distance to the corner (0, 0), and one column per building. *)
Definition score_on (c : Coordinates) (sz : Z * Z) : Q :=
  Samples.planar_distance (with_y c 0) (mkCoordinates 0 0 0).

Definition footprint_on (b : Building) (rotation : Z) : Z * Z := (1, 1).

(** The placement search of these settlements in the world [w]. *)
Definition search_on (w : World)
  : ConstructionPlot -> Building -> Z -> option Z -> list Building ->
    ConstructionPlot * option Coordinates :=
  PlacementSearch.get_subplot score_on w footprint_on.

(** Building on a spot, for the same settlements: the footprint and its
    padding are marked as occupied. *)
Definition construct_on (p : ConstructionPlot) (b : Building) (spot : Coordinates)
  : ConstructionPlot * Building :=
  (occupy_area p spot (1, 1) (Props.padding (properties b)), b).

Definition roads_on (p : ConstructionPlot) (start_ end_ : Coordinates)
  : ConstructionPlot * bool := (p, true).

End Towns.

(** ** The words of the specification about a footprint cell *)
Module Specified.

(** "Area-membership tests against a rectangular bound": the cell's column
    is one of the plot, [start <= c < end] on x and on z. *)
Definition inside_bound (p : ConstructionPlot) (c : Coordinates) : bool :=
  (coord_x (start p) <=? coord_x c) && (coord_x c <? coord_x (plot_end p)) &&
  (coord_z (start p) <=? coord_z c) && (coord_z c <? coord_z (plot_end p)).

(** "Some footprint cell's ground is water": the top block of the cell's
    column, one below the column's height, is water. *)
Definition on_water (w : World) (p : ConstructionPlot) (c : Coordinates) : bool :=
  match _get_y p (coord_x c) (coord_z c) with
  | Ok h => is_one_of (get_block_at w (coord_x c) (h - 1) (coord_z c)) ["water"%string]
  | Raise _ => false
  end.

(** The cell (dx, dz) of the footprint of size [sz] placed at [origin]. *)
Definition footprint_cell (origin : Coordinates) (sz : Z * Z) (dx dz : Z) (c : Coordinates)
  : Prop :=
  0 <= dx < sz.1 /\ 0 <= dz < sz.2 /\ c = shift origin dx 0 dz.

End Specified.

(** ** [build_area.Plot.get_blocks_at_surface] *)
Module Surface.

(** [Plot.get_blocks_at_surface(heightmap_type)]: one entry per column of
    the heightmap [hm] that [self.get_heightmap(heightmap_type)] returns,
    keyed by the column's coordinate at (height - 1). *)
Definition get_blocks_at_surface (w : World) (p : ConstructionPlot) (hm : list (list Z))
  : list (Coordinates * Block) :=
  foldl (fun surface_blocks xr =>
           foldl (fun surface_blocks zh =>
                    let coordinates :=
                      mkCoordinates (coord_x (start p) + xr.1) (zh.2 - 1)
                        (coord_z (start p) + zh.1) in
                    dict_set coordinates
                      (get_block_at w (coord_x coordinates) (coord_y coordinates)
                         (coord_z coordinates))
                      surface_blocks)
             surface_blocks (enumerate xr.2))
    [] (enumerate hm).

End Surface.

(** ** Further sample worlds *)
Module MoreSamples.

(** Three columns of grass of height 1 in a row, as a 3 x 1 plot at (0, 0). *)
Definition row_world : World := Samples.grass_world [[1]; [1]; [1]].
Definition row_plot : ConstructionPlot := init 0 0 (3, 1) 200.

End MoreSamples.

(** ** [simulation.settlement.Settlement]: catalogue, mapping protocol, deaths *)
Module SettlementMore.

Import Simulation.

(** An entry of [env.BUILDINGS], as far as [is_building_constructible]
    reads the dict: the keys 'cost', 'type' and 'maximum', each of which may
    be absent. *)
Record BuildingData : Type := mkBuildingData {
  data_cost : option Z;
  data_type : option string;
  data_maximum : option Z
}.

(** [Settlement.is_building_constructible(name, data)]: [data.get] falls
    back on its default, [data['type']] raises [KeyError] when the key is
    absent, [and] stops at the first false operand, and a [Counter] gives 0
    for a missing key. *)
Definition is_building_constructible (s : Settlement) (name : string) (data : BuildingData)
  : result bool :=
  if default 0 (data_cost data) <=? worker_number s then
    match data_type data with
    | None => Raise KeyError
    | Some type =>
        if bool_decide (type <> "DECORATION"%string)
        then Ok (default 0 (counter s !! name) <? default 1 (data_maximum data))
        else Ok false
    end
  else Ok false.

(** What [Settlement.__getitem__] returns: the building itself when the name
    has exactly one, the list of its buildings otherwise. *)
Inductive Found : Type :=
| Single (ref : nat)
| Several (refs : list nat).

(** [Settlement.__getitem__(key)].  [__buildings] is a [defaultdict(list)]:
    looking a missing key up stores an empty list under it. *)
Definition __getitem__ (s : Settlement) (key : string) : Settlement * Found :=
  let '(s, value) :=
    match buildings s !! key with
    | Some value => (s, value)
    | None => (with_buildings s (<[key := []]> (buildings s)), [])
    end in
  (s, match value with
      | [ref] => Single ref
      | _ => Several value
      end).

(** [Settlement.__len__()]. *)
Definition __len__ (s : Settlement) : Z := Z.of_nat (base.size (buildings s)).

(** [Settlement.__delitem__(key)]. *)
Definition __delitem__ (s : Settlement) (key : string) : result Settlement :=
  match buildings s !! key with
  | Some _ => Ok (with_buildings s (delete key (buildings s)))
  | None => Raise KeyError
  end.

(** [l.remove(x)] on the roster, a villager being equal to itself only: the
    first villager of that identity is removed, [None] when there is none. *)
Fixpoint remove_villager (villager : nat) (l : list Villager) : option (list Villager) :=
  match l with
  | [] => None
  | v :: l' =>
      if decide (vid v = villager) then Some l'
      else match remove_villager villager l' with
           | Some r => Some (v :: r)
           | None => None
           end
  end.

(** Every villager that has a house is on the roster of that building. *)
Definition housing_consistent (s : Settlement) : Prop :=
  forall u h, u ∈ inhabitants s -> house u = Some h ->
    exists b, chronology s !! h = Some b /\ vid u ∈ building_inhabitants b.

(** A building after some villagers moved in: only its roster of
    inhabitants changed, by new entries at its end, and it holds no more
    villagers than it has beds, unless it already did. *)
Definition settled_from (b0 b : Building) : Prop :=
  name b = name b0 /\ kind b = kind b0 /\ properties b = properties b0 /\
  rotation b = rotation b0 /\ entrance b = entrance b0 /\
  building_workers b = building_workers b0 /\
  building_inhabitants b0 `prefix_of` building_inhabitants b /\
  len (building_inhabitants b)
  <= Z.max (len (building_inhabitants b0)) (Props.number_of_beds (properties b0)).

Section Deaths.

(** [villager.die(year, cause)] is not under src/; what it does to the
    buildings the villager lived and worked in is a parameter. *)
Variable die : list Building -> nat -> Z -> string -> list Building.

(** [Settlement.villager_die(villager, year, cause)].  The graveyard branch
    only looks an existing key up and prints. *)
Definition villager_die (s : Settlement) (villager : nat) (year : Z) (cause : string)
  : result Settlement :=
  let s := with_chronology s (die (chronology s) villager year cause) in
  match remove_villager villager (inhabitants s) with
  | Some roster => Ok (with_inhabitants s roster (next_vid s))
  | None => Raise ValueError
  end.

End Deaths.

End SettlementMore.

(** ** Further sample settlements *)
Module MoreTowns.

Import Simulation.

(** One house of two beds with its first inhabitant (villager 0) in, a
    second villager still homeless, and a farm with two worker slots. *)
Definition farm : Building :=
  mkBuilding "farm" Regular (Props.mkProperties 0 2 3 false 0) 0 (mkCoordinates 5 0 5) [] [].

Definition cottage : Building :=
  mkBuilding "house" Regular (Props.mkProperties 2 0 0 false 0) 0 (mkCoordinates 0 0 0)
    [0%nat] [].

Definition village : Settlement :=
  mkSettlement (init 0 0 (4, 4) 200) [cottage; farm]
    {[ "house"%string := [0%nat]; "farm"%string := [1%nat] ]}
    {[ "house"%string := 1; "farm"%string := 1 ]}
    [mkVillager 0 0 (Some 0%nat) None; mkVillager 1 0 None None] 3 None None 2.

End MoreTowns.

(** ** [utils.structure.Structure] *)
Module Structures.

Section Structure.

(** The blocks of a structure ([blocks.block.Block], not under src/) and the
    two of their methods that [Structure] calls are parameters:
    [block.replace_first(materials)] and [block.shift_position_to(start)].
    A [BlockList] is the list of its blocks. *)
Variable B : Type.
Variable replace_first : B -> list (string * string) -> B.
Variable shift_position_to : B -> Coordinates -> B.

(** The fields of a [Structure]; [variations] is the cache of
    [__get_variation], keyed by the description of the materials. *)
Record Structure : Type := mkStructure {
  structure_name : string;
  structure_size : Z * Z * Z;
  blocks : list B;
  variations : gmap string (list B)
}.

(** [Structure(name, size, blocks)]. *)
Definition init (name : string) (sz : Z * Z * Z) (bs : list B) : Structure :=
  mkStructure name sz bs ∅.

(** [', '.join([f'{k}: {v}' for k, v in materials.items()])], the materials
    being a dict in insertion order. *)
Definition variation_key (materials : list (string * string)) : string :=
  String.concat ", " ((fun kv => kv.1 +:+ ": " +:+ kv.2) <$> materials).

(** [Structure.__get_variation(materials)]: the blocks returned and the
    structure with its cache after the call. *)
Definition __get_variation (st : Structure) (materials : list (string * string))
  : list B * Structure :=
  let variation := variation_key materials in
  match variations st !! variation with
  | Some cached => (cached, st)
  | None =>
      let bs := (fun block => replace_first block materials) <$> blocks st in
      (bs, mkStructure (structure_name st) (structure_size st) (blocks st)
             (<[variation := bs]> (variations st)))
  end.

(** [Structure.get_blocks(plot, materials)], [build_start] being
    [plot.build_start]; an empty dict of materials is false. *)
Definition get_blocks (st : Structure) (build_start : Coordinates)
  (materials : list (string * string)) : list B * Structure :=
  let '(bs, st) :=
    match materials with
    | [] => (blocks st, st)
    | _ :: _ => __get_variation st materials
    end in
  ((fun block => shift_position_to block build_start) <$> bs, st).

End Structure.

(** Two dicts of materials with the same description: one material whose
    replacement contains a comma, and two materials. *)
Definition one_material : list (string * string) :=
  [("oak", "birch, stone: marble")]%string.
Definition two_materials : list (string * string) :=
  [("oak", "birch"); ("stone", "marble")]%string.

(** Blocks as plain names: replacing puts the first material's replacement
    in front, shifting leaves the name alone. *)
Definition rename_first (block : string) (materials : list (string * string)) : string :=
  match materials with
  | [] => block
  | (_, replacement) :: _ => (replacement +:+ "/" +:+ block)%string
  end.

Definition keep_block (block : string) (build_start : Coordinates) : string := block.

Definition hut : Structure string := init string "hut" (3, 3, 3) ["oak_planks"; "stone"]%string.

End Structures.

(** * Properties *)

Module PlotFacts.

Import Samples.

Lemma elem_of_range (a b i : Z) : i ∈ range a b <-> a <= i < b.
Proof. unfold range. rewrite elem_of_seqZ. lia. Qed.

Lemma elem_of_footprint (sz : Z * Z) (x z : Z) :
  (x, z) ∈ footprint sz <-> (0 <= x < sz.1) /\ (0 <= z < sz.2).
Proof.
  unfold footprint. rewrite list_elem_of_bind. split.
  - intros (x' & Hz & Hx). apply list_elem_of_bind in Hz as (z' & Hin & Hz).
    apply list_elem_of_singleton in Hin. inversion Hin; subst.
    apply elem_of_range in Hx, Hz. lia.
  - intros [Hx Hz]. exists x. split; [|by apply elem_of_range; lia].
    apply list_elem_of_bind. exists z. split; [by apply list_elem_of_singleton|].
    apply elem_of_range. lia.
Qed.

(** Adding one coordinate per element of a list. *)
Lemma elem_of_foldl_add {A : Type} (g : A -> Coordinates) (l : list A)
  (occ : gset Coordinates) (c : Coordinates) :
  c ∈ foldl (fun occ a => occ ∪ {[ g a ]}) occ l <-> c ∈ occ \/ exists a, a ∈ l /\ c = g a.
Proof.
  revert occ. induction l as [|a l IH]; intros occ; simpl.
  - split; [by left|]. intros [?|(a & Ha & _)]; [done|]. by apply elem_of_nil in Ha.
  - rewrite IH, elem_of_union, elem_of_singleton. split.
    + intros [[?| ->]|(a' & Ha' & ->)]; [by left| |].
      * right. exists a. split; [left|done].
      * right. exists a'. split; [by right|done].
    + intros [?|(a' & Ha' & ->)]; [by left; left|].
      apply elem_of_cons in Ha' as [-> |Ha']; [by left; right|].
      right. by exists a'.
Qed.

Lemma elem_of_foldl_add2 {A B : Type} (g : A -> B -> Coordinates) (la : list A)
  (lb : list B) (occ : gset Coordinates) (c : Coordinates) :
  c ∈ foldl (fun occ a => foldl (fun occ b => occ ∪ {[ g a b ]}) occ lb) occ la
  <-> c ∈ occ \/ exists a b, a ∈ la /\ b ∈ lb /\ c = g a b.
Proof.
  revert occ. induction la as [|a la IH]; intros occ; simpl.
  - split; [by left|]. intros [?|(a & b & Ha & _)]; [done|]. by apply elem_of_nil in Ha.
  - rewrite IH, elem_of_foldl_add. split.
    + intros [[?|(b & Hb & ->)]|(a' & b & Ha' & Hb & ->)]; [by left| |].
      * right. exists a, b. split; [left|done].
      * right. exists a', b. split; [by right|done].
    + intros [?|(a' & b & Ha' & Hb & ->)]; [by left; left|].
      apply elem_of_cons in Ha' as [-> |Ha'].
      * left. right. by exists b.
      * right. by exists a', b.
Qed.

(** What [occupy_area] marks: the columns of the rectangle that starts at
    [origin + size - padding], not at [origin - padding]. *)
Lemma occupy_area_marks (p : ConstructionPlot) (origin : Coordinates) (sz : Z * Z)
  (padding : Z) (c : Coordinates) :
  c ∈ occupied_coords (occupy_area p origin sz padding) <->
  c ∈ occupied_coords p \/
  (coord_y c = 0 /\
   coord_x origin + sz.1 - padding <= coord_x c < coord_x origin + 2 * sz.1 + padding /\
   coord_z origin + sz.2 - padding <= coord_z c < coord_z origin + 2 * sz.2 + padding).
Proof.
  unfold occupy_area. simpl.
  rewrite (elem_of_foldl_add2
             (fun x z => with_y (shift origin (sz.1 + x) 0 (sz.2 + z)) 0)).
  split; (intros [?|H]; [by left|right]).
  - destruct H as (x & z & Hx & Hz & ->). apply elem_of_range in Hx, Hz.
    simpl. lia.
  - destruct H as (Hy & Hx & Hz).
    exists (coord_x c - coord_x origin - sz.1), (coord_z c - coord_z origin - sz.2).
    rewrite !elem_of_range. repeat split; try lia.
    destruct c as [cx cy cz]; simpl in *. subst cy.
    unfold with_y, shift; simpl. f_equal; lia.
Qed.

(** C1 (evaluation at the spec's own example).  After
    [occupy_area(origin=(0,0,0), size=(3,3), padding=1)] on a fresh plot the
    occupied set is the 5 x 5 block of columns [2,7) x [2,7): the origin's
    own column (0,0) and the padding corner (-1,-1) are not marked, the
    column (6,6) outside [-1,4) x [-1,4) is; and the rebuilt candidate pool
    still contains the columns (0,0) and (-1,-1). *)
Theorem occupy_area_example_shifted :
  let p := occupy_area plot5 (mkCoordinates 0 0 0) (3, 3) 1 in
  let pool := keys (foundation_blocks (_build_foundation_blocks (grass_world flat5) p)) in
  (mkCoordinates 0 0 0 ∉ occupied_coords p) /\
  (mkCoordinates (-1) 0 (-1) ∉ occupied_coords p) /\
  (mkCoordinates 6 0 6 ∈ occupied_coords p) /\
  (mkCoordinates 0 0 0 ∈ pool) /\
  (mkCoordinates (-1) 0 (-1) ∈ pool).
Proof.
  intros p pool. unfold p. rewrite !occupy_area_marks.
  change (occupied_coords plot5) with (∅ : gset Coordinates).
  cbn [coord_x coord_y coord_z fst snd].
  repeat split.
  - intros [H|H]; [by apply not_elem_of_empty in H|lia].
  - intros [H|H]; [by apply not_elem_of_empty in H|lia].
  - right. lia.
  - apply list_elem_of_In. vm_compute. tauto.
  - apply list_elem_of_In. vm_compute. tauto.
Qed.

(** *** The membership test of [_get_score] *)

(** The first cell visited ends the loops: the membership test raises
    [TypeError], which [except KeyError] does not catch. *)
Lemma score_cells_type_error (p : ConstructionPlot) (coord : Coordinates)
  (cells : list (Z * Z)) (score : Q) :
  cells <> [] -> score_cells p coord cells score = Raise TypeError.
Proof. destruct cells as [|[x z] rest]; [done|]. reflexivity. Qed.

Lemma footprint_nonempty (sz : Z * Z) : 0 < sz.1 -> 0 < sz.2 -> footprint sz <> [].
Proof.
  intros Hw Hd Hnil.
  assert (Hin : (0, 0) ∈ footprint sz) by (apply elem_of_footprint; simpl; lia).
  rewrite Hnil in Hin. by apply elem_of_nil in Hin.
Qed.

Lemma get_score_type_error (distance : Coordinates -> Coordinates -> Q)
  (p : ConstructionPlot) (coord : Coordinates) (sz : Z * Z) :
  0 < sz.1 -> 0 < sz.2 -> _get_score distance p coord sz = Raise TypeError.
Proof.
  intros Hw Hd. unfold _get_score. apply score_cells_type_error.
  by apply footprint_nonempty.
Qed.

(** C2 (what the code does instead).  For every plot, candidate origin and
    footprint size (w, d) with at least one cell, all of whose cells lie
    inside the plot bound, [_get_score] returns no score at all: it raises
    [TypeError] at the membership test of its first cell. *)
Theorem get_score_inside_bound_raises (distance : Coordinates -> Coordinates -> Q)
  (p : ConstructionPlot) (coord : Coordinates) (sz : Z * Z) :
  0 < sz.1 -> 0 < sz.2 ->
  (forall dx dz c, Specified.footprint_cell coord sz dx dz c ->
                   Specified.inside_bound p c = true) ->
  _get_score distance p coord sz = Raise TypeError.
Proof. intros Hw Hd _. by apply get_score_type_error. Qed.

Lemma get_score_inside_bound_raises_witness :
  _get_score planar_distance ridge_plot (mkCoordinates 0 0 0) (1, 2) = Raise TypeError.
Proof.
  apply (get_score_inside_bound_raises planar_distance ridge_plot (mkCoordinates 0 0 0) (1, 2)).
  - simpl. lia.
  - simpl. lia.
  - intros dx dz c (Hx & Hz & ->). unfold Specified.inside_bound. simpl in *. lia.
Defined.

(** C9 (what the code does instead).  For every candidate origin and
    footprint size such that some footprint cell lies outside the plot
    bound or has water as its ground, [_get_score] does not return the
    sentinel: it raises [TypeError]. *)
Theorem get_score_outside_or_water_raises (distance : Coordinates -> Coordinates -> Q)
  (w : World) (p : ConstructionPlot) (coord : Coordinates) (sz : Z * Z) :
  (exists dx dz c, Specified.footprint_cell coord sz dx dz c /\
     (Specified.inside_bound p c = false \/ Specified.on_water w p c = true)) ->
  _get_score distance p coord sz = Raise TypeError.
Proof.
  intros (dx & dz & c & (Hx & Hz & _) & _). apply get_score_type_error; lia.
Qed.

Lemma get_score_outside_or_water_raises_witness :
  _get_score planar_distance ridge_plot (mkCoordinates 1 0 1) (2, 1) = Raise TypeError
  /\ _get_score planar_distance pond_plot (mkCoordinates 0 0 0) (2, 1) = Raise TypeError.
Proof.
  split.
  - apply (get_score_outside_or_water_raises planar_distance (grass_world ridge) ridge_plot
             (mkCoordinates 1 0 1) (2, 1)).
    exists 1, 0, (mkCoordinates 2 0 1). split; [|left; reflexivity].
    unfold Specified.footprint_cell. simpl. repeat split; lia.
  - apply (get_score_outside_or_water_raises planar_distance pond_world pond_plot
             (mkCoordinates 0 0 0) (2, 1)).
    exists 1, 0, (mkCoordinates 1 0 0). split; [|right; reflexivity].
    unfold Specified.footprint_cell. simpl. repeat split; lia.
Defined.

(** *** Indexing *)

Lemma getitem_valid {A : Type} (l : list A) (i : Z) :
  - len l <= i < len l -> exists a, getitem l i = Ok a /\ a ∈ l.
Proof.
  intros Hi. unfold getitem.
  destruct (Z.leb_spec 0 i) as [H0|H0]; destruct (Z.ltb_spec i (len l)) as [Hn|Hn];
    try lia; simpl.
  - destruct (lookup_lt_is_Some_2 l (Z.to_nat i)) as [a Ha]; [unfold len in *; lia|].
    rewrite Ha. exists a. split; [done|]. by eapply list_elem_of_lookup_2.
  - destruct (Z.leb_spec (- len l) i); [|lia].
    destruct (Z.ltb_spec i 0); [|lia]. simpl.
    destruct (lookup_lt_is_Some_2 l (Z.to_nat (len l + i))) as [a Ha];
      [unfold len in *; lia|].
    rewrite Ha. exists a. split; [done|]. by eapply list_elem_of_lookup_2.
Qed.

(** *** The search loop *)

Lemma Qltb_true (a b : Q) : Qltb a b = true <-> (a < b)%Q.
Proof.
  unfold Qltb. rewrite negb_true_iff. split.
  - intros H. apply Qnot_le_lt. intros Hle. apply Qle_bool_iff in Hle. congruence.
  - intros H. destruct (Qle_bool b a) eqn:E; [|done].
    apply Qle_bool_iff in E. by apply Qlt_not_le in H.
Qed.

Lemma Qltb_false (a b : Q) : Qltb a b = false <-> (b <= a)%Q.
Proof.
  unfold Qltb. rewrite negb_false_iff. apply Qle_bool_iff.
Qed.

Lemma every_nth_from_subseteq {A : Type} (k : nat) (l : list A) (skip : nat) (a : A) :
  a ∈ every_nth_from skip k l -> a ∈ l.
Proof.
  revert skip. induction l as [|a' l IH]; intros skip; simpl; [done|].
  destruct skip.
  - intros [-> |H]%elem_of_cons; [left|right; eauto].
  - intros H. right. eauto.
Qed.

Lemma slice_step_subseteq {A : Type} (l visited : list A) (k : Z) (a : A) :
  slice_step l k = Ok visited -> a ∈ visited -> a ∈ l.
Proof.
  unfold slice_step. destruct (k =? 0); [done|].
  destruct (0 <? k); intros [= <-] Ha; apply every_nth_from_subseteq in Ha; [done|].
  apply list_elem_of_In. apply list_elem_of_In in Ha. by apply in_rev.
Qed.

Lemma getitem_first {A : Type} (l : list A) :
  l <> [] -> exists a, getitem l 0 = Ok a /\ a ∈ l.
Proof.
  destruct l as [|a l]; [done|]. intros _. exists a. split; [|left].
  unfold getitem, len. simpl length.
  destruct (Z.ltb_spec 0 (Z.of_nat (S (length l)))); [done|lia].
Qed.

(** *** [get_construction_spot] *)

Lemma every_nth_from_nonempty {A : Type} (k : nat) (l : list A) :
  l <> [] -> every_nth_from 0 k l <> [].
Proof. by destruct l. Qed.

(** With a pool and a footprint that are not empty and a stride other
    than 0, the first candidate visited is scored and the exception of
    [_get_score] leaves the search. *)
Lemma get_construction_spot_raises (distance : Coordinates -> Coordinates -> Q)
  (w : World) (p : ConstructionPlot) (sz : Z * Z) (speed : option Z) :
  speed <> Some 0 ->
  keys (foundation_blocks (_build_foundation_blocks w p)) <> [] ->
  0 < sz.1 -> 0 < sz.2 ->
  get_construction_spot distance w p sz speed
  = (_build_foundation_blocks w p, Raise TypeError).
Proof.
  intros Hspeed Hne Hw Hd. unfold get_construction_spot. f_equal.
  destruct (getitem_first _ Hne) as (first & -> & _). cbn [bind].
  set (k := match speed with None => 1 | Some s => s end).
  assert (Hk : k <> 0).
  { unfold k. destruct speed as [z|]; [|done]. intros ->. by apply Hspeed. }
  unfold slice_step. destruct (Z.eqb_spec k 0) as [|_]; [done|].
  destruct (0 <? k); cbn [bind].
  - destruct (every_nth_from 0 (Z.to_nat k) _) as [|c rest] eqn:Hv.
    + by apply every_nth_from_nonempty in Hv.
    + cbn [best_of]. by rewrite get_score_type_error.
  - destruct (every_nth_from 0 (Z.to_nat (- k)) _) as [|c rest] eqn:Hv.
    + apply every_nth_from_nonempty in Hv; [done|].
      intros Hrev. apply Hne. by rewrite <- (rev_involutive (keys _)), Hrev.
    + cbn [best_of]. by rewrite get_score_type_error.
Qed.

(** *** [get_construction_spot] *)

(** C3 (what the code does instead).  For every non-empty candidate pool
    searched with stride 1 and every footprint with at least one cell,
    [get_construction_spot] returns no coordinate: the score of the first
    candidate raises [TypeError] and the search raises with it. *)
Theorem get_construction_spot_type_error (distance : Coordinates -> Coordinates -> Q)
  (w : World) (p : ConstructionPlot) (sz : Z * Z) (speed : option Z) :
  speed = None \/ speed = Some 1 ->
  keys (foundation_blocks (_build_foundation_blocks w p)) <> [] ->
  0 < sz.1 -> 0 < sz.2 ->
  (get_construction_spot distance w p sz speed).2 = Raise TypeError.
Proof.
  intros Hspeed Hne Hw Hd.
  rewrite get_construction_spot_raises; [done| |done|done|done].
  by destruct Hspeed as [-> | ->].
Qed.

Lemma get_construction_spot_type_error_witness :
  (get_construction_spot planar_distance plain_world (init 0 0 (2, 2) 200) (1, 1) None).2
  = Raise TypeError.
Proof.
  apply (get_construction_spot_type_error planar_distance plain_world
           (init 0 0 (2, 2) 200) (1, 1) None).
  - by left.
  - discriminate.
  - simpl. lia.
  - simpl. lia.
Defined.

(** C4.  When the rebuilt candidate pool is empty, [get_construction_spot]
    raises [IndexError] (from [keys_list[0]]). *)
Theorem get_construction_spot_empty_pool_raises
  (distance : Coordinates -> Coordinates -> Q)
  (w : World) (p : ConstructionPlot) (sz : Z * Z) (speed : option Z) :
  keys (foundation_blocks (_build_foundation_blocks w p)) = [] ->
  (get_construction_spot distance w p sz speed).2 = Raise IndexError.
Proof.
  intros Hempty. unfold get_construction_spot. cbn [snd]. by rewrite Hempty.
Qed.

Lemma get_construction_spot_empty_pool_raises_witness :
  (get_construction_spot planar_distance sea_world plot1 (1, 1) None).2 = Raise IndexError.
Proof.
  apply (get_construction_spot_empty_pool_raises planar_distance sea_world plot1 (1, 1) None).
  reflexivity.
Defined.

(** *** The placement search with a threshold *)

(** The loop ends on the best candidate it was given, or on a visited
    candidate together with its score. *)
Lemma track_minimum_spec (score : Coordinates -> Z * Z -> Q) (sz : Z * Z)
  (visited : list Coordinates) (best : option (Coordinates * Q)) :
  match PlacementSearch.track_minimum score sz visited best with
  | None => best = None /\ visited = []
  | Some (b, m) => best = Some (b, m) \/ (b ∈ visited /\ m = score b sz)
  end.
Proof.
  revert best. induction visited as [|c rest IH]; intros best.
  - simpl. destruct best as [[b m]|]; [by left|done].
  - cbn [PlacementSearch.track_minimum].
    assert (Hnew : match PlacementSearch.track_minimum score sz rest (Some (c, score c sz)) with
                   | None => False
                   | Some (b, m) => b ∈ c :: rest /\ m = score b sz
                   end).
    { specialize (IH (Some (c, score c sz))).
      destruct (PlacementSearch.track_minimum score sz rest (Some (c, score c sz)))
        as [[b m]|]; [|by destruct IH].
      destruct IH as [[= <- <-]|[Hb ->]]; [split; [left|done]|split; [by right|done]]. }
    destruct best as [[b0 m0]|].
    + destruct (Qltb (score c sz) m0).
      * destruct (PlacementSearch.track_minimum score sz rest (Some (c, score c sz)))
          as [[b m]|]; [by right|done].
      * specialize (IH (Some (b0, m0))).
        destruct (PlacementSearch.track_minimum score sz rest (Some (b0, m0)))
          as [[b m]|]; [|by destruct IH].
        destruct IH as [?|[Hb ->]]; [by left|right; split; [by right|done]].
    + destruct (PlacementSearch.track_minimum score sz rest (Some (c, score c sz)))
        as [[b m]|]; [by right|done].
Qed.

(** C5.  When a threshold [max_score] is supplied to the placement search
    and every candidate it visits scores above the threshold (the minimum
    exceeds it), the search reports NoSuitableSpot and returns no
    coordinate. *)
Theorem find_spot_over_threshold (score : Coordinates -> Z * Z -> Q)
  (pool : list Coordinates) (sz : Z * Z) (stride : nat) (max_score : Q) :
  (forall c, c ∈ every_nth_from 0 stride pool -> (max_score < score c sz)%Q) ->
  PlacementSearch.find_spot score pool sz stride (Some max_score) = None.
Proof.
  intros Habove. unfold PlacementSearch.find_spot.
  pose proof (track_minimum_spec score sz (every_nth_from 0 stride pool) None) as Hmin.
  destruct (PlacementSearch.track_minimum score sz (every_nth_from 0 stride pool) None)
    as [[b m]|]; [|done].
  destruct Hmin as [?|[Hb ->]]; [done|].
  apply Habove in Hb. apply Qltb_true in Hb. by rewrite Hb.
Qed.

Lemma find_spot_over_threshold_witness :
  PlacementSearch.find_spot Towns.score_on
    [mkCoordinates 3 0 0; mkCoordinates 5 0 1; mkCoordinates 2 0 2] (1, 1) 1 (Some (2 # 1))
  = None.
Proof.
  apply (find_spot_over_threshold Towns.score_on
           [mkCoordinates 3 0 0; mkCoordinates 5 0 1; mkCoordinates 2 0 2] (1, 1) 1 (2 # 1)).
  intros c Hc. apply list_elem_of_In in Hc. simpl in Hc.
  destruct Hc as [<- |[<- |[<- |[]]]]; reflexivity.
Defined.

End PlotFacts.

Module SettlementFacts.

Import Simulation Towns.

(** *** What the two assignment passes leave alone *)

Lemma add_inhabitant_vids (s : Settlement) (ref villager : nat) :
  vid <$> inhabitants (add_inhabitant s ref villager) = vid <$> inhabitants s.
Proof.
  unfold add_inhabitant. simpl. rewrite <- list_fmap_compose.
  apply list_fmap_ext. intros _ v _. simpl. by case_decide.
Qed.

Lemma add_worker_vids (s : Settlement) (ref villager : nat) :
  vid <$> inhabitants (add_worker s ref villager) = vid <$> inhabitants s.
Proof.
  unfold add_worker. simpl. rewrite <- list_fmap_compose.
  apply list_fmap_ext. intros _ v _. simpl. by case_decide.
Qed.

Lemma fill_houses_loop_keeps (villagers available : list nat) (s : Settlement) :
  vid <$> inhabitants (fill_houses_loop villagers available s) = vid <$> inhabitants s /\
  food_available (fill_houses_loop villagers available s) = food_available s.
Proof.
  revert available s.
  induction villagers as [|v vs IH]; intros available s; cbn [fill_houses_loop]; [done|].
  destruct (pop available) as [[rest ref]|]; [|done].
  match goal with
  | |- context [fill_houses_loop vs ?a ?t] => destruct (IH a t) as [-> ->]
  end.
  by rewrite add_inhabitant_vids.
Qed.

Lemma fill_work_places_loop_keeps (villagers available : list nat) (s : Settlement) :
  vid <$> inhabitants (fill_work_places_loop villagers available s) = vid <$> inhabitants s /\
  food_available (fill_work_places_loop villagers available s) = food_available s.
Proof.
  revert available s.
  induction villagers as [|v vs IH]; intros available s; cbn [fill_work_places_loop]; [done|].
  destruct (pop available) as [[rest ref]|]; [|done].
  match goal with
  | |- context [fill_work_places_loop vs ?a ?t] => destruct (IH a t) as [-> ->]
  end.
  by rewrite add_worker_vids.
Qed.

Lemma update_keeps (s : Settlement) (year : Z) :
  vid <$> inhabitants (update s year) = vid <$> inhabitants (update_resources s year) /\
  food_available (update s year) = food_available (update_resources s year).
Proof.
  unfold update, fill_work_places, fill_houses.
  match goal with
  | |- context [fill_work_places_loop ?vs ?a ?t] =>
      destruct (fill_work_places_loop_keeps vs a t) as [-> ->]
  end.
  apply fill_houses_loop_keeps.
Qed.

Lemma population_vids (s s' : Settlement) :
  vid <$> inhabitants s' = vid <$> inhabitants s -> population s' = population s.
Proof.
  intros H. unfold population, len.
  by rewrite <- (length_fmap vid (inhabitants s')), H, length_fmap.
Qed.

(** *** The food and birth rules *)

Lemma update_resources_inhabitants (s : Settlement) (year : Z) :
  inhabitants (update_resources s year)
  = inhabitants s ++ newborns year (births s) (next_vid s).
Proof.
  unfold update_resources, births.
  change (population (with_food_available s (food_available s + food_production s)))
    with (population s).
  change (food_available (with_food_available s (food_available s + food_production s)))
    with (food_available s + food_production s).
  destruct (Z.leb_spec (population s) (food_available s + food_production s)) as [Hfed|Hlack].
  - cbn [inhabitants with_food_available].
    change (population (with_food_available _ _)) with (population s).
    change (number_of_beds (with_food_available _ _)) with (number_of_beds s).
    destruct (population s <=? number_of_beds s); simpl.
    + done.
    + unfold newborns. simpl. by rewrite app_nil_r.
  - simpl. unfold newborns.
    replace (Z.to_nat (food_available s + food_production s - population s)) with 0%nat
      by (unfold population in *; lia).
    simpl. by rewrite app_nil_r.
Qed.

Lemma update_resources_food (s : Settlement) (year : Z) :
  food_available (update_resources s year)
  = if population s <=? food_available s + food_production s
    then food_available s + food_production s - population s
    else 0.
Proof.
  unfold update_resources.
  change (population (with_food_available s (food_available s + food_production s)))
    with (population s).
  change (food_available (with_food_available s (food_available s + food_production s)))
    with (food_available s + food_production s).
  destruct (population s <=? food_available s + food_production s); [|done].
  cbn [inhabitants with_food_available].
  change (population (with_food_available _ _)) with (population s).
  change (number_of_beds (with_food_available _ _)) with (number_of_beds s).
  by destruct (population s <=? number_of_beds s).
Qed.

(** C10.  [update] never decreases the population: the roster after the
    call starts with the roster before it (the same villagers, in the same
    order), so the population does not shrink; and when the food is
    insufficient ([food_available + food_production < population]) the
    roster is extended by no villager and [food_available] is reset to 0. *)
Theorem update_never_decreases_population (s : Settlement) (year : Z) :
  (vid <$> inhabitants s) `prefix_of` (vid <$> inhabitants (update s year)) /\
  population s <= population (update s year) /\
  (food_available s + food_production s < population s ->
   vid <$> inhabitants (update s year) = vid <$> inhabitants s /\
   food_available (update s year) = 0).
Proof.
  destruct (update_keeps s year) as [Hv Hf].
  rewrite Hv, Hf, update_resources_inhabitants, update_resources_food, fmap_app.
  split; [by apply prefix_app_r|]. split.
  - unfold population, len.
    rewrite <- (length_fmap vid (inhabitants (update s year))), Hv,
      update_resources_inhabitants, length_fmap, length_app. lia.
  - intros Hlack. unfold births.
    destruct (Z.leb_spec (population s) (food_available s + food_production s)); [lia|].
    split; [|done]. unfold newborns. simpl. by rewrite app_nil_r.
Qed.

Lemma update_never_decreases_population_witness :
  vid <$> inhabitants (update hamlet 7) = vid <$> inhabitants hamlet /\
  food_available (update hamlet 7) = 0.
Proof.
  apply (update_never_decreases_population hamlet 7). reflexivity.
Defined.

(** C6 (as amended).  For a settlement with population 10, 12 beds, a food
    production of 4 and a food stock of 10, one call to [update] leaves
    [food_available = 4] and the roster unchanged: no villager is born,
    since [food_for_children = (14 - 10) - 10 = -6] and
    [max(0, min(-6, min(5, 2))) = 0]. *)
Theorem update_example_no_birth (s : Settlement) (year : Z) :
  population s = 10 ->
  number_of_beds s = 12 ->
  food_production s = 4 ->
  food_available s = 10 ->
  food_available (update s year) = 4 /\
  vid <$> inhabitants (update s year) = vid <$> inhabitants s /\
  population (update s year) = 10.
Proof.
  intros Hpop Hbeds Hprod Hfood.
  destruct (update_keeps s year) as [Hv Hf].
  assert (Hb : births s = 0).
  { unfold births. rewrite Hpop, Hbeds, Hprod, Hfood. reflexivity. }
  assert (Hsame : vid <$> inhabitants (update s year) = vid <$> inhabitants s).
  { rewrite Hv, update_resources_inhabitants, Hb. unfold newborns. simpl.
    by rewrite app_nil_r. }
  split; [|split; [done|]].
  - rewrite Hf, update_resources_food, Hpop, Hprod, Hfood. reflexivity.
  - by rewrite (population_vids _ _ Hsame).
Qed.

Lemma update_example_no_birth_witness :
  food_available (update town 1) = 4 /\
  vid <$> inhabitants (update town 1) = vid <$> inhabitants town /\
  population (update town 1) = 10.
Proof.
  apply (update_example_no_birth town 1); reflexivity.
Defined.

(** C6 (counterexample).  The town has population 10, 12 beds, a food
    production of 4 and a food stock of 10; after one [update] its food
    stock is 4, not 0, and its population is still 10, not 12. *)
Lemma update_example_as_claimed_fails :
  population town = 10 /\ number_of_beds town = 12 /\
  food_production town = 4 /\ food_available town = 10 /\
  food_available (update town 1) <> 0 /\
  population (update town 1) <> population town + 2.
Proof.
  repeat split; try reflexivity; vm_compute; discriminate.
Qed.

(** *** Housing assignment *)

Lemma pop_Some {A : Type} (l rest : list A) (a : A) :
  pop l = Some (rest, a) -> l = rest ++ [a].
Proof.
  unfold pop. destruct (rev l) as [|b r] eqn:E; [done|]. intros [= <- <-].
  rewrite <- (rev_involutive l), E. simpl. done.
Qed.

Lemma pop_None {A : Type} (l : list A) : pop l = None -> l = [].
Proof.
  unfold pop. destruct (rev l) as [|b r] eqn:E; [|done]. intros _.
  rewrite <- (rev_involutive l), E. done.
Qed.

Lemma increasing_seq (a n : nat) : StronglySorted lt (seq a n).
Proof.
  revert a. induction n as [|n IH]; intros a; simpl; constructor; [apply IH|].
  apply Forall_forall. intros x Hx%elem_of_seq. lia.
Qed.

Lemma increasing_filter (P : nat -> Prop) `{forall x, Decision (P x)} (l : list nat) :
  StronglySorted lt l -> StronglySorted lt (filter P l).
Proof.
  induction 1 as [|a l Hl IH Ha]; [constructor|].
  rewrite filter_cons. case_decide; [|done]. constructor; [done|].
  apply Forall_forall. intros x [_ Hx]%list_elem_of_filter.
  rewrite Forall_forall in Ha. by apply Ha.
Qed.

Lemma increasing_snoc (l : list nat) (a : nat) :
  StronglySorted lt (l ++ [a]) -> StronglySorted lt l /\ forall b, b ∈ l -> (b < a)%nat.
Proof.
  induction l as [|c l IH]; simpl; intros Hs.
  - split; [constructor|]. intros b Hb. by apply elem_of_nil in Hb.
  - inversion Hs as [|? ? Hl Hc]; subst. destruct (IH Hl) as [Hl' Hlt].
    rewrite Forall_forall in Hc. split.
    + constructor; [done|]. apply Forall_forall. intros x Hx. apply Hc.
      apply elem_of_app. by left.
    + intros b [-> |Hb]%elem_of_cons; [|by apply Hlt].
      apply Hc. apply elem_of_app. right. by left.
Qed.

Lemma refs_where_increasing (test : Building -> bool) (chron : list Building) :
  StronglySorted lt (refs_where test chron).
Proof. unfold refs_where. apply increasing_filter, increasing_seq. Qed.

Lemma refs_where_complete (test : Building -> bool) (chron : list Building) (ref : nat) :
  ref ∉ refs_where test chron -> test_at test chron ref = false.
Proof.
  intros Hnot. destruct (test_at test chron ref) eqn:E; [|done].
  exfalso. apply Hnot. unfold refs_where. apply list_elem_of_filter. split; [done|].
  apply elem_of_seq. unfold test_at in E.
  destruct (chron !! ref) eqn:El; [|done]. apply lookup_lt_Some in El. lia.
Qed.

Lemma add_inhabitant_other (s : Settlement) (ref villager j : nat) :
  ref <> j -> chronology (add_inhabitant s ref villager) !! j = chronology s !! j.
Proof. intros Hne. unfold add_inhabitant. simpl. by apply list_lookup_alter_ne. Qed.

Lemma add_inhabitant_house (s : Settlement) (ref villager : nat) (u : Villager) :
  u ∈ inhabitants (add_inhabitant s ref villager) ->
  house u = None ->
  u ∈ inhabitants s /\ vid u <> villager.
Proof.
  unfold add_inhabitant. simpl. intros (u0 & -> & Hu0)%list_elem_of_fmap.
  case_decide; [done|]. intros _. done.
Qed.

(** The loop of [__fill_houses], from any point on: [available] lists, in
    chronology order, every building that still has free beds; only the
    last of them has received anyone so far.  Then, in the end, a building
    that differs from its state [chron0] at the start is followed only by
    full buildings, and either no villager is homeless or no building has
    a free bed. *)
Lemma fill_houses_loop_order (chron0 : list Building) (villagers available : list nat)
  (s : Settlement) :
  StronglySorted lt available ->
  (forall j, j ∉ available -> test_at has_empty_beds (chronology s) j = false) ->
  (forall i, chronology s !! i <> chron0 !! i -> forall j, j ∈ available -> (j <= i)%nat) ->
  (forall u, u ∈ inhabitants s -> house u = None -> vid u ∈ villagers) ->
  let s' := fill_houses_loop villagers available s in
  (forall i j, (i < j)%nat -> chronology s' !! i <> chron0 !! i ->
               test_at has_empty_beds (chronology s') j = false) /\
  ((forall u, u ∈ inhabitants s' -> house u <> None) \/
   (forall j, test_at has_empty_beds (chronology s') j = false)).
Proof.
  revert available s.
  induction villagers as [|v vs IH]; intros available s Hsorted Hfull Hlast Hhomeless;
    cbn [fill_houses_loop].
  - split.
    + intros i j Hij Hchanged. apply Hfull. intros Hj.
      specialize (Hlast i Hchanged j Hj). lia.
    + left. intros u Hu Hnone. specialize (Hhomeless u Hu Hnone).
      by apply elem_of_nil in Hhomeless.
  - destruct (pop available) as [[rest ref]|] eqn:Hpop.
    + apply pop_Some in Hpop. subst available.
      destruct (increasing_snoc rest ref Hsorted) as [Hrest Hbelow].
      apply IH.
      * unfold append. by destruct (test_at _ _ ref).
      * intros j Hj. destruct (decide (ref = j)) as [<- |Hne].
        -- destruct (test_at has_empty_beds _ ref) eqn:E; [|done].
           exfalso. apply Hj. unfold append. apply elem_of_app. right. by left.
        -- unfold test_at. rewrite add_inhabitant_other by done. apply Hfull.
           intros [Hin|Hin%list_elem_of_singleton]%elem_of_app; [|done].
           apply Hj. unfold append. destruct (test_at _ _ ref); [|done].
           apply elem_of_app. by left.
      * intros i Hchanged j Hj.
        assert (Hj' : j ∈ rest ++ [ref]).
        { unfold append in Hj. destruct (test_at _ _ ref); [done|].
          apply elem_of_app. by left. }
        destruct (decide (ref = i)) as [<- |Hne].
        -- apply elem_of_app in Hj' as [Hin|Hin%list_elem_of_singleton]; [|lia].
           specialize (Hbelow j Hin). lia.
        -- rewrite add_inhabitant_other in Hchanged by done. by eapply Hlast.
      * intros u Hu Hnone. destruct (add_inhabitant_house s ref v u Hu Hnone) as [Hu' Hne].
        specialize (Hhomeless u Hu' Hnone).
        by apply elem_of_cons in Hhomeless as [?|?].
    + apply pop_None in Hpop. subst available. split.
      * intros i j Hij Hchanged. apply Hfull. apply not_elem_of_nil.
      * right. intros j. apply Hfull. apply not_elem_of_nil.
Qed.

(** C7 (as amended).  Housing assignment fills the last-built building
    first: a building receives a villager only when every building built
    after it is full (the building popped from the back of the list goes
    back to the back, and is popped again, while it has free beds); and the
    pass stops when either pool is exhausted: afterwards no villager is
    homeless or no building has a free bed. *)
Theorem fill_houses_last_built_first (s : Settlement) (year : Z) :
  let s' := fill_houses s year in
  (forall i j, (i < j)%nat -> chronology s' !! i <> chronology s !! i ->
               test_at has_empty_beds (chronology s') j = false) /\
  ((forall u, u ∈ inhabitants s' -> house u <> None) \/
   (forall j, test_at has_empty_beds (chronology s') j = false)).
Proof.
  unfold fill_houses. apply fill_houses_loop_order.
  - apply refs_where_increasing.
  - apply refs_where_complete.
  - intros i Hchanged. done.
  - intros u Hu Hnone. apply list_elem_of_fmap. exists u. split; [done|].
    unfold homeless_villagers. by apply list_elem_of_filter.
Qed.

Lemma fill_houses_last_built_first_witness :
  (forall i j, (i < j)%nat ->
     chronology (fill_houses street 1) !! i <> chronology street !! i ->
     test_at has_empty_beds (chronology (fill_houses street 1)) j = false) /\
  ((forall u, u ∈ inhabitants (fill_houses street 1) -> house u <> None) \/
   (forall j, test_at has_empty_beds (chronology (fill_houses street 1)) j = false)).
Proof. apply (fill_houses_last_built_first street 1). Defined.

(** C7 (counterexample).  On the street both houses have free beds and two
    villagers are homeless; after the pass the last-built house holds both
    villagers and is full, and the first house, which has free beds, has
    received nobody: the occupants are not spread over the buildings. *)
Lemma fill_houses_not_round_robin :
  refs_where has_empty_beds (chronology street) = [0; 1]%nat /\
  vid <$> homeless_villagers street = [0; 1]%nat /\
  building_inhabitants <$> chronology (fill_houses street 1) = [[]; [0; 1]%nat] /\
  house <$> inhabitants (fill_houses street 1) = [Some 1; Some 1]%nat.
Proof. repeat split. Qed.

(** *** [add_building] *)

(** When the search finds no spot, [add_building] returns [False] at once:
    the settlement is as before, but for the plot, which is as the search
    left it. *)
Lemma add_building_no_spot (SubPlot : Type)
  (get_subplot : ConstructionPlot -> Building -> Z -> option Z -> list Building ->
                 ConstructionPlot * option SubPlot)
  (construct : ConstructionPlot -> Building -> SubPlot -> ConstructionPlot * Building)
  (compute_roads : ConstructionPlot -> Coordinates -> Coordinates -> ConstructionPlot * bool)
  (s : Settlement) (building : Building) (max_score : option Z) :
  (get_subplot (plot s) building (rotation building) max_score (chronology s)).2 = None ->
  add_building SubPlot get_subplot construct compute_roads s building max_score
  = Ok (with_plot s
          (get_subplot (plot s) building (rotation building) max_score (chronology s)).1,
        false).
Proof.
  intros Hnone. unfold add_building.
  destruct (get_subplot (plot s) building (rotation building) max_score (chronology s))
    as [cp found].
  simpl in Hnone. by subst found.
Qed.

(** C8.  With the placement search of the specification behind
    [get_subplot], for every building and every settlement: if the search
    finds no spot, [add_building] returns [False] and leaves the occupied
    coordinates of the plot, the chronology, the per-name building map, the
    building counter and the villager roster unchanged. *)
Theorem add_building_no_spot_no_change (score : Coordinates -> Z * Z -> Q)
  (w : World) (footprint_of : Building -> Z -> Z * Z)
  (construct : ConstructionPlot -> Building -> Coordinates -> ConstructionPlot * Building)
  (compute_roads : ConstructionPlot -> Coordinates -> Coordinates -> ConstructionPlot * bool)
  (s : Settlement) (building : Building) (max_score : option Z) :
  (PlacementSearch.get_subplot score w footprint_of
     (plot s) building (rotation building) max_score (chronology s)).2 = None ->
  exists s',
    add_building Coordinates (PlacementSearch.get_subplot score w footprint_of)
      construct compute_roads s building max_score
    = Ok (s', false) /\
    occupied_coords (plot s') = occupied_coords (plot s) /\
    chronology s' = chronology s /\
    buildings s' = buildings s /\
    counter s' = counter s /\
    inhabitants s' = inhabitants s /\
    food_available s' = food_available s.
Proof.
  intros Hnone. eexists. split; [by apply add_building_no_spot|].
  by repeat split.
Qed.

Lemma add_building_no_spot_no_change_witness :
  exists s',
    add_building Coordinates (search_on Samples.sea_world) construct_on roads_on
      town (house_of 4 0) (Some 10)
    = Ok (s', false) /\
    occupied_coords (plot s') = occupied_coords (plot town) /\
    chronology s' = chronology town /\
    buildings s' = buildings town /\
    counter s' = counter town /\
    inhabitants s' = inhabitants town /\
    food_available s' = food_available town.
Proof.
  apply (add_building_no_spot_no_change score_on Samples.sea_world footprint_on
           construct_on roads_on town (house_of 4 0) (Some 10)).
  reflexivity.
Defined.

End SettlementFacts.

(** ** More on the plot engine *)
Module PlotMore.

Import Samples.

(** *** Python containers *)

Lemma elem_of_enumerate {A : Type} (l : list A) (i : Z) (a : A) :
  (i, a) ∈ enumerate l <-> 0 <= i /\ l !! Z.to_nat i = Some a.
Proof.
  unfold enumerate. rewrite list_elem_of_lookup. split.
  - intros (n & Hn). apply lookup_zip_with_Some in Hn as (i' & a' & [= -> ->] & Hi & Ha).
    apply lookup_seqZ in Hi as [-> _]. split; [lia|].
    by replace (Z.to_nat (0 + Z.of_nat n)) with n by lia.
  - intros [Hi Ha]. exists (Z.to_nat i). apply lookup_zip_with_Some.
    exists i, a. split; [done|]. split; [|done].
    apply lookup_seqZ. apply lookup_lt_Some in Ha. lia.
Qed.

Lemma elem_of_keys_dict_set {K V : Type} `{EqDecision K} (k k' : K) (v : V)
  (d : list (K * V)) :
  k' ∈ keys (dict_set k v d) <-> k' = k \/ k' ∈ keys d.
Proof.
  unfold keys. induction d as [|[k0 v0] d IH]; simpl.
  - rewrite list_elem_of_singleton. split; [by left|]. intros [?|H]; [done|].
    by apply elem_of_nil in H.
  - case_decide as Hk; simpl.
    + subst k0. rewrite !elem_of_cons. tauto.
    + rewrite !elem_of_cons, IH. tauto.
Qed.

(** The keys after a loop whose every pass adds at most one key. *)
Lemma elem_of_keys_foldl {K V A : Type} (step : list (K * V) -> A -> list (K * V))
  (added : A -> K -> Prop) :
  (forall acc a k, k ∈ keys (step acc a) <-> k ∈ keys acc \/ added a k) ->
  forall (l : list A) (acc : list (K * V)) (k : K),
    k ∈ keys (foldl step acc l) <-> k ∈ keys acc \/ exists a, a ∈ l /\ added a k.
Proof.
  intros Hstep l. induction l as [|a l IH]; intros acc k; simpl.
  - split; [by left|]. intros [?|(a & Ha & _)]; [done|]. by apply elem_of_nil in Ha.
  - rewrite IH, Hstep. split.
    + intros [[?|?]|(a' & Ha' & ?)]; [by left| |].
      * right. exists a. split; [left|done].
      * right. exists a'. split; [by right|done].
    + intros [?|(a' & [-> |Ha']%elem_of_cons & ?)]; [by left; left|by left; right|].
      right. by exists a'.
Qed.

(** *** The candidate pool *)

Lemma elem_of_keys_foundation_step (w : World) (p : ConstructionPlot) (x z h : Z)
  (acc : list (Coordinates * Block)) (k : Coordinates) :
  k ∈ keys (foundation_step w p x acc (z, h)) <->
  k ∈ keys acc \/
  (k = mkCoordinates (coord_x (start p) + x) (h - 1) (coord_z (start p) + z) /\
   (k ∉ occupied_coords p) /\
   is_one_of (get_block_at w (coord_x k) (coord_y k) (coord_z k)) ["water"%string] = false /\
   h - 1 < construction_roof p).
Proof.
  unfold foundation_step.
  set (c := mkCoordinates (coord_x (start p) + x) (h - 1) (coord_z (start p) + z)).
  destruct (decide (c ∈ occupied_coords p)) as [Hocc|Hocc].
  { split; [by left|]. intros [?|(-> & Hn & _)]; done. }
  destruct (is_one_of _ _) eqn:Hwater; simpl.
  { split; [by left|]. intros [?|(-> & _ & Hw & _)]; [done|].
    change (is_one_of (get_block_at w (coord_x c) (coord_y c) (coord_z c))
              ["water"%string] = false) in Hw.
    congruence. }
  change (coord_y (block_coordinates (get_block_at w (coord_x c) (coord_y c) (coord_z c))))
    with (h - 1).
  destruct (Z.ltb_spec (h - 1) (construction_roof p)) as [Hroof|Hroof].
  - rewrite elem_of_keys_dict_set. split.
    + intros [-> |?]; [|by left]. right. by repeat split.
    + intros [?|(-> & _)]; [by right|by left].
  - split; [by left|]. intros [?|(_ & _ & _ & ?)]; [done|lia].
Qed.

(** The keys of the rebuilt pool, by heightmap position. *)
Lemma elem_of_surface_blocks_of (w : World) (p : ConstructionPlot) (hm : list (list Z))
  (k : Coordinates) :
  k ∈ keys (surface_blocks_of w p hm) <->
  exists x row z h,
    (x, row) ∈ enumerate hm /\ (z, h) ∈ enumerate row /\
    k = mkCoordinates (coord_x (start p) + x) (h - 1) (coord_z (start p) + z) /\
    (k ∉ occupied_coords p) /\
    is_one_of (get_block_at w (coord_x k) (coord_y k) (coord_z k)) ["water"%string] = false /\
    h - 1 < construction_roof p.
Proof.
  unfold surface_blocks_of.
  rewrite (elem_of_keys_foldl
             (fun acc xr => foldl (foundation_step w p xr.1) acc (enumerate xr.2))
             (fun xr k => exists z h, (z, h) ∈ enumerate xr.2 /\
                k = mkCoordinates (coord_x (start p) + xr.1) (h - 1) (coord_z (start p) + z) /\
                (k ∉ occupied_coords p) /\
                is_one_of (get_block_at w (coord_x k) (coord_y k) (coord_z k))
                  ["water"%string] = false /\
                h - 1 < construction_roof p)).
  - split.
    + intros [H|([x row] & Hxr & z & h & Hzh & Hk)]; [by apply elem_of_nil in H|].
      by exists x, row, z, h.
    + intros (x & row & z & h & Hxr & Hzh & Hk). right. exists (x, row).
      split; [done|]. by exists z, h.
  - intros acc [x row] k'. cbn [fst snd].
    rewrite (elem_of_keys_foldl (foundation_step w p x)
               (fun zh k => k = mkCoordinates (coord_x (start p) + x) (zh.2 - 1)
                                  (coord_z (start p) + zh.1) /\
                  (k ∉ occupied_coords p) /\
                  is_one_of (get_block_at w (coord_x k) (coord_y k) (coord_z k))
                    ["water"%string] = false /\
                  zh.2 - 1 < construction_roof p)).
    + split; (intros [?|H]; [by left|right]).
      * destruct H as ([z h] & Hzh & Hk). by exists z, h.
      * destruct H as (z & h & Hzh & Hk). by exists (z, h).
    + intros acc' [z h] k''. apply elem_of_keys_foundation_step.
Qed.

(** A key of the rebuilt pool is the surface coordinate of a column. *)
Lemma pool_key_column (w : World) (p : ConstructionPlot) (c : Coordinates) :
  c ∈ keys (foundation_blocks (_build_foundation_blocks w p)) ->
  exists (i j : nat) (row : list Z) (h : Z),
    get_heightmap w !! i = Some row /\ row !! j = Some h /\
    c = mkCoordinates (coord_x (start p) + Z.of_nat i) (h - 1)
          (coord_z (start p) + Z.of_nat j).
Proof.
  unfold _build_foundation_blocks. cbn [foundation_blocks with_foundation].
  intros (x & row & z & h & [Hx Hrow]%elem_of_enumerate & [Hz Hh]%elem_of_enumerate
          & Hc & _)%elem_of_surface_blocks_of.
  exists (Z.to_nat x), (Z.to_nat z), row, h. rewrite !Z2Nat.id by lia. done.
Qed.

(** X1.  The rebuilt candidate pool holds exactly the columns of the heightmap
    that are not occupied at their surface coordinate, whose surface block
    is not water and lies below the construction roof, each keyed by its
    coordinate at (height - 1); what the pool held before plays no part. *)
Theorem foundation_pool_exact (w : World) (p : ConstructionPlot) (c : Coordinates) :
  c ∈ keys (foundation_blocks (_build_foundation_blocks w p)) <->
  exists (i j : nat) (row : list Z) (h : Z),
    get_heightmap w !! i = Some row /\ row !! j = Some h /\
    c = mkCoordinates (coord_x (start p) + Z.of_nat i) (h - 1)
          (coord_z (start p) + Z.of_nat j) /\
    (c ∉ occupied_coords p) /\
    is_one_of (get_block_at w (coord_x c) (coord_y c) (coord_z c)) ["water"%string] = false /\
    h - 1 < construction_roof p.
Proof.
  unfold _build_foundation_blocks. cbn [foundation_blocks with_foundation].
  rewrite elem_of_surface_blocks_of. split.
  - intros (x & row & z & h & [Hx Hrow]%elem_of_enumerate & [Hz Hh]%elem_of_enumerate
            & Hc & Hocc & Hwater & Hroof).
    exists (Z.to_nat x), (Z.to_nat z), row, h. rewrite !Z2Nat.id by lia. done.
  - intros (i & j & row & h & Hrow & Hh & Hc & Hocc & Hwater & Hroof).
    exists (Z.of_nat i), row, (Z.of_nat j), h.
    rewrite !elem_of_enumerate, !Nat2Z.id. repeat split; try lia; done.
Qed.

(** X2.  The occupied coordinates are stored at y = 0 while a candidate is
    tested at y = height - 1: when every occupied coordinate has y = 0, a
    column whose height is not 1 is a candidate whatever is occupied. *)
Theorem occupied_column_stays_candidate (w : World) (p : ConstructionPlot)
  (i j : nat) (row : list Z) (h : Z) :
  (forall c, c ∈ occupied_coords p -> coord_y c = 0) ->
  get_heightmap w !! i = Some row ->
  row !! j = Some h ->
  h <> 1 ->
  is_one_of (get_block_at w (coord_x (start p) + Z.of_nat i) (h - 1)
               (coord_z (start p) + Z.of_nat j)) ["water"%string] = false ->
  h - 1 < construction_roof p ->
  mkCoordinates (coord_x (start p) + Z.of_nat i) (h - 1) (coord_z (start p) + Z.of_nat j)
  ∈ keys (foundation_blocks (_build_foundation_blocks w p)).
Proof.
  intros Hflat Hrow Hh Hne Hwater Hroof.
  unfold _build_foundation_blocks. cbn [foundation_blocks with_foundation].
  apply elem_of_surface_blocks_of.
  exists (Z.of_nat i), row, (Z.of_nat j), h.
  rewrite !elem_of_enumerate, !Nat2Z.id. repeat split; try lia; try done.
  intros Hocc. apply Hflat in Hocc. simpl in Hocc. lia.
Qed.

Lemma occupied_column_stays_candidate_witness :
  mkCoordinates 0 63 0
  ∈ keys (foundation_blocks
            (_build_foundation_blocks plain_world
               (occupy_area (init 0 0 (2, 2) 200) (mkCoordinates (-1) 63 (-1)) (1, 1) 0))).
Proof.
  apply (occupied_column_stays_candidate plain_world
           (occupy_area (init 0 0 (2, 2) 200) (mkCoordinates (-1) 63 (-1)) (1, 1) 0)
           0 0 [64; 64] 64).
  - intros c Hc. apply PlotFacts.occupy_area_marks in Hc as [Hc|[Hy _]]; [|done].
    by apply not_elem_of_empty in Hc.
  - reflexivity.
  - reflexivity.
  - lia.
  - reflexivity.
  - reflexivity.
Defined.

(** X3.  [get_blocks_at_surface] lists every column of the heightmap, and every
    candidate of the rebuilt pool is one of its keys. *)
Theorem surface_blocks_cover_pool (w : World) (p : ConstructionPlot) :
  (forall c,
     c ∈ keys (Surface.get_blocks_at_surface w p (get_heightmap w)) <->
     exists (i j : nat) (row : list Z) (h : Z),
       get_heightmap w !! i = Some row /\ row !! j = Some h /\
       c = mkCoordinates (coord_x (start p) + Z.of_nat i) (h - 1)
             (coord_z (start p) + Z.of_nat j)) /\
  (forall c,
     c ∈ keys (foundation_blocks (_build_foundation_blocks w p)) ->
     c ∈ keys (Surface.get_blocks_at_surface w p (get_heightmap w))).
Proof.
  assert (Hsurface : forall c,
     c ∈ keys (Surface.get_blocks_at_surface w p (get_heightmap w)) <->
     exists (i j : nat) (row : list Z) (h : Z),
       get_heightmap w !! i = Some row /\ row !! j = Some h /\
       c = mkCoordinates (coord_x (start p) + Z.of_nat i) (h - 1)
             (coord_z (start p) + Z.of_nat j)).
  { intros c. unfold Surface.get_blocks_at_surface.
    rewrite (elem_of_keys_foldl _
               (fun xr k => exists z h, (z, h) ∈ enumerate xr.2 /\
                  k = mkCoordinates (coord_x (start p) + xr.1) (h - 1)
                        (coord_z (start p) + z))).
    - split.
      + intros [H|([x row] & [Hx Hrow]%elem_of_enumerate & z & h
                   & [Hz Hh]%elem_of_enumerate & ->)];
          [by apply elem_of_nil in H|].
        exists (Z.to_nat x), (Z.to_nat z), row, h. rewrite !Z2Nat.id by lia. done.
      + intros (i & j & row & h & Hrow & Hh & ->). right. exists (Z.of_nat i, row).
        rewrite elem_of_enumerate, Nat2Z.id. split; [split; [lia|done]|].
        exists (Z.of_nat j), h. rewrite elem_of_enumerate, Nat2Z.id.
        split; [split; [lia|done]|done].
    - intros acc [x row] k. cbn [fst snd].
      rewrite (elem_of_keys_foldl _
                 (fun zh k => k = mkCoordinates (coord_x (start p) + x) (zh.2 - 1)
                                    (coord_z (start p) + zh.1))).
      + split; (intros [?|H]; [by left|right]).
        * destruct H as ([z h] & Hzh & Hk). by exists z, h.
        * destruct H as (z & h & Hzh & Hk). by exists (z, h).
      + intros acc' [z h] k'. cbn [fst snd]. rewrite elem_of_keys_dict_set. tauto. }
  split; [exact Hsurface|].
  intros c (i & j & row & h & Hrow & Hh & Hc)%pool_key_column.
  apply Hsurface. by exists i, j, row, h.
Qed.

(** *** [occupy_area] *)

(** X4.  [occupy_area] adds, for every pair of offsets of its two [range]
    loops, the coordinate [origin.shift(size[0] + x, 0, size[1] + z)]
    projected to y = 0, and nothing else; what was occupied stays
    occupied. *)
Theorem occupy_area_offsets (p : ConstructionPlot) (origin : Coordinates) (sz : Z * Z)
  (padding : Z) (c : Coordinates) :
  c ∈ occupied_coords (occupy_area p origin sz padding) <->
  c ∈ occupied_coords p \/
  exists x z, - padding <= x < sz.1 + padding /\ - padding <= z < sz.2 + padding /\
              c = mkCoordinates (coord_x origin + (sz.1 + x)) 0 (coord_z origin + (sz.2 + z)).
Proof.
  unfold occupy_area. cbn [occupied_coords with_occupied].
  rewrite (PlotFacts.elem_of_foldl_add2
             (fun x z => with_y (shift origin (sz.1 + x) 0 (sz.2 + z)) 0)).
  split; (intros [?|(x & z & H)]; [by left|right; exists x, z]).
  - destruct H as (Hx%PlotFacts.elem_of_range & Hz%PlotFacts.elem_of_range & ->).
    by repeat split; try lia.
  - destruct H as (Hx & Hz & ->). rewrite !PlotFacts.elem_of_range.
    by repeat split; try lia.
Qed.

(** [occupy_area] never frees a coordinate, and it changes nothing when one
    of the padded dimensions is empty ([size + 2 * padding <= 0]). *)
Theorem occupy_area_only_grows (p : ConstructionPlot) (origin : Coordinates) (sz : Z * Z)
  (padding : Z) :
  occupied_coords p ⊆ occupied_coords (occupy_area p origin sz padding) /\
  (sz.1 + 2 * padding <= 0 \/ sz.2 + 2 * padding <= 0 ->
   occupied_coords (occupy_area p origin sz padding) = occupied_coords p).
Proof.
  split.
  - intros c Hc. apply PlotFacts.occupy_area_marks. by left.
  - intros Hempty. apply set_eq. intros c. rewrite PlotFacts.occupy_area_marks.
    split; [|by left]. intros [?|(_ & Hx & Hz)]; [done|]. lia.
Qed.

Lemma occupy_area_only_grows_witness :
  occupied_coords (occupy_area plot5 (mkCoordinates 0 0 0) (3, 3) (-2)) = occupied_coords plot5.
Proof.
  apply (occupy_area_only_grows plot5 (mkCoordinates 0 0 0) (3, 3) (-2)).
  left. simpl. lia.
Defined.

(** X5.  The occupied set after two calls of [occupy_area] does not depend on
    their order. *)
Theorem occupy_area_commutes (p : ConstructionPlot) (o1 o2 : Coordinates)
  (sz1 sz2 : Z * Z) (pad1 pad2 : Z) :
  occupied_coords (occupy_area (occupy_area p o1 sz1 pad1) o2 sz2 pad2)
  = occupied_coords (occupy_area (occupy_area p o2 sz2 pad2) o1 sz1 pad1).
Proof.
  apply set_eq. intros c. rewrite !PlotFacts.occupy_area_marks. tauto.
Qed.

(** *** Height lookups *)

Lemma getitem_invalid {A : Type} (l : list A) (i : Z) :
  ~ (- len l <= i < len l) -> getitem l i = Raise IndexError.
Proof.
  intros Hi. unfold getitem.
  destruct (Z.leb_spec 0 i); destruct (Z.ltb_spec i (len l)); simpl; try lia;
    destruct (Z.leb_spec (- len l) i); destruct (Z.ltb_spec i 0); simpl; try lia; done.
Qed.

Lemma getitem_wraps {A : Type} (l : list A) (i : Z) :
  - len l <= i < 0 -> getitem l i = getitem l (len l + i).
Proof.
  intros Hi. unfold getitem.
  destruct (Z.leb_spec 0 i); [lia|]. simpl.
  destruct (Z.leb_spec (- len l) i); [|lia]. destruct (Z.ltb_spec i 0); [|lia]. simpl.
  destruct (Z.leb_spec 0 (len l + i)); [|lia].
  destruct (Z.ltb_spec (len l + i) (len l)); [|lia]. done.
Qed.

(** X6.  [_get_y] follows numpy's indexing: with the heightmap loaded and of the
    plot's shape it returns an entry exactly when both relative indices lie
    in [-n, n) for their dimension, and raises [IndexError] otherwise, so
    the [except KeyError] of [_get_score] never catches a failed lookup. *)
Theorem get_y_bounds (p : ConstructionPlot) (hm : list (list Z)) (x z : Z) :
  _construction_heightmap p = Some hm ->
  heightmap_shape p hm ->
  let valid :=
    (- (size p).1 <= x - coord_x (start p) < (size p).1) /\
    (- (size p).2 <= z - coord_z (start p) < (size p).2) in
  (valid -> exists h, _get_y p x z = Ok h) /\
  (~ valid -> _get_y p x z = Raise IndexError).
Proof.
  intros Hhm [Hrows Hcols] valid. unfold _get_y, getitem2. rewrite Hhm. split.
  - intros [Hx Hz].
    destruct (PlotFacts.getitem_valid hm (x - coord_x (start p))) as (row & -> & Hrow); [lia|].
    simpl. rewrite Forall_forall in Hcols. specialize (Hcols row Hrow).
    destruct (PlotFacts.getitem_valid row (z - coord_z (start p))) as (h & -> & _); [lia|].
    by exists h.
  - intros Hinvalid.
    destruct (decide (- (size p).1 <= x - coord_x (start p) < (size p).1)) as [Hx|Hx].
    + destruct (PlotFacts.getitem_valid hm (x - coord_x (start p))) as (row & -> & Hrow);
        [lia|].
      simpl. rewrite Forall_forall in Hcols. specialize (Hcols row Hrow).
      apply getitem_invalid. rewrite Hcols. unfold valid in Hinvalid. tauto.
    + rewrite getitem_invalid by (rewrite Hrows; exact Hx). done.
Qed.

Lemma get_y_bounds_witness :
  (exists h, _get_y ridge_plot 1 (-1) = Ok h) /\ _get_y ridge_plot 1 63 = Raise IndexError.
Proof.
  destruct (get_y_bounds ridge_plot ridge 1 (-1)) as [Hok _];
    [reflexivity|split; [reflexivity|repeat constructor]|].
  destruct (get_y_bounds ridge_plot ridge 1 63) as [_ Hraise];
    [reflexivity|split; [reflexivity|repeat constructor]|].
  split; [apply Hok|apply Hraise]; simpl; lia.
Defined.

(** X7.  A position up to one plot depth before the plot's start does not fail:
    the negative index wraps around and [_get_y] reads the column one plot
    depth further. *)
Theorem get_y_wraps_around (p : ConstructionPlot) (hm : list (list Z)) (x z : Z) :
  _construction_heightmap p = Some hm ->
  heightmap_shape p hm ->
  - (size p).2 <= z - coord_z (start p) < 0 ->
  _get_y p x z = _get_y p x (z + (size p).2).
Proof.
  intros Hhm [Hrows Hcols] Hz. unfold _get_y, getitem2. rewrite Hhm.
  destruct (getitem hm (x - coord_x (start p))) as [row|e] eqn:Hrow; [|done].
  simpl. assert (Hin : row ∈ hm).
  { unfold getitem in Hrow.
    repeat match type of Hrow with
           | (if ?b then _ else _) = _ => destruct b
           | match ?o with Some _ => _ | None => _ end = _ => destruct o eqn:?
           end; try done; injection Hrow as ->; by eapply list_elem_of_lookup_2. }
  rewrite Forall_forall in Hcols. specialize (Hcols row Hin).
  rewrite getitem_wraps by lia. f_equal. lia.
Qed.

Lemma get_y_wraps_around_witness : _get_y ridge_plot 0 (-1) = _get_y ridge_plot 0 1.
Proof.
  apply (get_y_wraps_around ridge_plot ridge 0 (-1)).
  - reflexivity.
  - split; [reflexivity|repeat constructor].
  - simpl. lia.
Defined.

(** *** [_get_score] *)

Lemma footprint_empty (sz : Z * Z) : sz.1 <= 0 \/ sz.2 <= 0 -> footprint sz = [].
Proof.
  intros Hsz. apply elem_of_nil_inv. intros [x z] Hin%PlotFacts.elem_of_footprint. lia.
Qed.

(** X9.  A footprint with a dimension that is zero or negative has no cell:
    [_get_score] then returns the distance term alone, the float
    [distance * .1], whether or not the origin lies in the plot and whether
    or not a heightmap is loaded. *)
Theorem get_score_empty_footprint (distance : Coordinates -> Coordinates -> Q)
  (p : ConstructionPlot) (coord : Coordinates) (sz : Z * Z) :
  sz.1 <= 0 \/ sz.2 <= 0 ->
  _get_score distance p coord sz
  = Ok (binary64
          (distance (with_y coord 0) (mkCoordinates (center p).1 0 (center p).2)
           * binary64 (1 # 10))).
Proof.
  intros Hsz. unfold _get_score. by rewrite footprint_empty.
Qed.

Lemma get_score_empty_footprint_witness :
  _get_score planar_distance plot1 (mkCoordinates 40 0 0) (0, 5)
  = Ok (binary64
          (planar_distance (with_y (mkCoordinates 40 0 0) 0)
             (mkCoordinates (center plot1).1 0 (center plot1).2)
           * binary64 (1 # 10))).
Proof.
  apply (get_score_empty_footprint planar_distance plot1 (mkCoordinates 40 0 0) (0, 5)).
  left. simpl. lia.
Defined.

(** *** [get_construction_spot] *)

Section SearchMore.

Variable distance : Coordinates -> Coordinates -> Q.
Variable p : ConstructionPlot.
Variable sz : Z * Z.

Local Abbreviation score := (_get_score distance p).

Lemma best_of_member (coords : list Coordinates) (best b : Coordinates) (m : Q) :
  best_of distance p sz coords best m = Ok b -> b = best \/ b ∈ coords.
Proof.
  revert best m. induction coords as [|c coords IH]; intros best m; cbn [best_of].
  - intros [= ->]. by left.
  - destruct (score c sz) as [sc|e]; [|done].
    destruct (Qltb sc m); intros [-> |Hb]%IH.
    + right. left.
    + right. by right.
    + by left.
    + right. by right.
Qed.

(** The loop ends on the first candidate that attains the least score,
    when that score is below the starting minimum; otherwise it keeps the
    spot it started with. *)
Lemma best_of_first (coords : list Coordinates) (best : Coordinates) (m : Q) :
  (forall c, c ∈ coords -> exists s, score c sz = Ok s) ->
  exists b, best_of distance p sz coords best m = Ok b /\
    ((b = best /\ forall c s, c ∈ coords -> score c sz = Ok s -> (m <= s)%Q) \/
     (exists l1 l2 s, coords = l1 ++ b :: l2 /\ score b sz = Ok s /\ (s < m)%Q /\
        (forall c s', c ∈ l1 -> score c sz = Ok s' -> (s < s')%Q) /\
        (forall c s', c ∈ l2 -> score c sz = Ok s' -> (s <= s')%Q))).
Proof.
  revert best m. induction coords as [|c coords IH]; intros best m Hok.
  - exists best. split; [done|]. left. split; [done|].
    intros c s Hc. by apply elem_of_nil in Hc.
  - destruct (Hok c) as [sc Hsc]; [left|].
    assert (Hok' : forall c', c' ∈ coords -> exists s, score c' sz = Ok s).
    { intros c' Hc'. apply Hok. by right. }
    cbn [best_of]. rewrite Hsc. destruct (Qltb sc m) eqn:Hlt.
    + apply PlotFacts.Qltb_true in Hlt.
      destruct (IH c sc Hok') as (b & -> & [[-> Hmin]|(l1 & l2 & s & -> & Hs & Hlt' & H1 & H2)]).
      * exists c. split; [done|]. right. exists [], coords, sc.
        repeat split; [done|done| |done].
        intros c' s' Hc'. by apply elem_of_nil in Hc'.
      * exists b. split; [done|]. right. exists (c :: l1), l2, s.
        repeat split; [done|by eapply Qlt_trans| |done].
        intros c' s' [-> |Hc']%elem_of_cons Hs'; [|by eapply H1].
        rewrite Hsc in Hs'. by inversion Hs'; subst.
    + apply PlotFacts.Qltb_false in Hlt.
      destruct (IH best m Hok') as (b & -> & [[-> Hmin]|(l1 & l2 & s & -> & Hs & Hlt' & H1 & H2)]).
      * exists best. split; [done|]. left. split; [done|].
        intros c' s' [-> |Hc']%elem_of_cons Hs'; [|by eapply Hmin].
        rewrite Hsc in Hs'. by inversion Hs'; subst.
      * exists b. split; [done|]. right. exists (c :: l1), l2, s.
        repeat split; [done|done| |done].
        intros c' s' [-> |Hc']%elem_of_cons Hs'; [|by eapply H1].
        rewrite Hsc in Hs'. inversion Hs'; subst. by eapply Qlt_le_trans.
Qed.

End SearchMore.

(** X11.  Whatever the stride, a coordinate that [get_construction_spot] returns
    is a key of the rebuilt candidate pool. *)
Theorem get_construction_spot_in_pool (distance : Coordinates -> Coordinates -> Q)
  (w : World) (p : ConstructionPlot) (sz : Z * Z) (speed : option Z) (c : Coordinates) :
  (get_construction_spot distance w p sz speed).2 = Ok c ->
  c ∈ keys (foundation_blocks (_build_foundation_blocks w p)).
Proof.
  unfold get_construction_spot. cbn [snd].
  set (pool := keys (foundation_blocks (_build_foundation_blocks w p))).
  destruct (getitem pool 0) as [first|e] eqn:Hfirst; [|done]. cbn [bind].
  destruct (slice_step pool _) as [visited|e] eqn:Hvisited; [|done]. cbn [bind].
  intros [-> |Hc]%best_of_member.
  - unfold getitem in Hfirst.
    repeat match type of Hfirst with
           | (if ?b then _ else _) = _ => destruct b
           | match ?o with Some _ => _ | None => _ end = _ => destruct o eqn:?
           end; try done; injection Hfirst as ->; by eapply list_elem_of_lookup_2.
  - by eapply PlotFacts.slice_step_subseteq.
Qed.

Lemma get_construction_spot_in_pool_witness :
  mkCoordinates 1 0 0
  ∈ keys (foundation_blocks
            (_build_foundation_blocks MoreSamples.row_world MoreSamples.row_plot)).
Proof.
  apply (get_construction_spot_in_pool planar_distance MoreSamples.row_world
           MoreSamples.row_plot (0, 0) None).
  reflexivity.
Defined.

(** X12.  With a non-empty pool, a stride of 0 raises [ValueError] (from the
    slice [keys_list[::0]]). *)
Theorem get_construction_spot_zero_stride (distance : Coordinates -> Coordinates -> Q)
  (w : World) (p : ConstructionPlot) (sz : Z * Z) :
  keys (foundation_blocks (_build_foundation_blocks w p)) <> [] ->
  (get_construction_spot distance w p sz (Some 0)).2 = Raise ValueError.
Proof.
  intros Hne. unfold get_construction_spot. cbn [snd].
  destruct (PlotFacts.getitem_first _ Hne) as (first & -> & _). done.
Qed.

Lemma get_construction_spot_zero_stride_witness :
  (get_construction_spot planar_distance lawn_world plot1 (1, 1) (Some 0)).2 = Raise ValueError.
Proof.
  apply (get_construction_spot_zero_stride planar_distance lawn_world plot1 (1, 1)).
  discriminate.
Defined.

(** X14.  For any stride other than 0: when the visited candidates
    [keys_list[::speed]] are all scored without error (which takes a
    footprint without cells) and one of them scores below the sentinel, the
    search returns the first visited candidate that attains the least score
    among the visited ones: every candidate visited before it scores
    strictly more, every one visited after it at least as much. *)
Theorem get_construction_spot_first_minimum (distance : Coordinates -> Coordinates -> Q)
  (w : World) (p : ConstructionPlot) (sz : Z * Z) (speed : option Z)
  (visited : list Coordinates) :
  let p' := _build_foundation_blocks w p in
  let pool := keys (foundation_blocks p') in
  slice_step pool (match speed with None => 1 | Some s => s end) = Ok visited ->
  (forall c, c ∈ visited -> exists s, _get_score distance p' c sz = Ok s) ->
  (exists c s, c ∈ visited /\ _get_score distance p' c sz = Ok s /\
               (s < inject_Z _WORST_SCORE)%Q) ->
  exists l1 b l2 s,
    visited = l1 ++ b :: l2 /\
    get_construction_spot distance w p sz speed = (p', Ok b) /\
    _get_score distance p' b sz = Ok s /\
    (forall c s', c ∈ l1 -> _get_score distance p' c sz = Ok s' -> (s < s')%Q) /\
    (forall c s', c ∈ l2 -> _get_score distance p' c sz = Ok s' -> (s <= s')%Q).
Proof.
  intros p' pool Hvisited Hok (c0 & s0 & Hc0 & Hs0 & Hbelow).
  assert (Hne : pool <> []).
  { intros Hnil. apply (PlotFacts.slice_step_subseteq _ _ _ _ Hvisited) in Hc0.
    rewrite Hnil in Hc0. by apply elem_of_nil in Hc0. }
  destruct (PlotFacts.getitem_first pool Hne) as (first & Hfirst & _).
  destruct (best_of_first distance p' sz visited first (inject_Z _WORST_SCORE) Hok)
    as (b & Hb & [[-> Hmin]|(l1 & l2 & s & -> & Hs & Hlt & H1 & H2)]).
  - exfalso. specialize (Hmin c0 s0 Hc0 Hs0). by apply Qlt_not_le in Hbelow.
  - exists l1, b, l2, s. repeat split; [|done|done|done].
    unfold get_construction_spot. fold p'. fold pool. f_equal.
    rewrite Hfirst. cbn [bind]. rewrite Hvisited. cbn [bind]. exact Hb.
Qed.

Lemma get_construction_spot_first_minimum_witness :
  let p' := _build_foundation_blocks MoreSamples.row_world MoreSamples.row_plot in
  exists l1 b l2 s,
    [mkCoordinates 0 0 0; mkCoordinates 2 0 0] = l1 ++ b :: l2 /\
    get_construction_spot planar_distance MoreSamples.row_world MoreSamples.row_plot
      (0, 0) (Some 2) = (p', Ok b) /\
    _get_score planar_distance p' b (0, 0) = Ok s /\
    (forall c s', c ∈ l1 -> _get_score planar_distance p' c (0, 0) = Ok s' -> (s < s')%Q) /\
    (forall c s', c ∈ l2 -> _get_score planar_distance p' c (0, 0) = Ok s' -> (s <= s')%Q).
Proof.
  apply (get_construction_spot_first_minimum planar_distance MoreSamples.row_world
           MoreSamples.row_plot (0, 0) (Some 2)
           [mkCoordinates 0 0 0; mkCoordinates 2 0 0]).
  - reflexivity.
  - intros c [-> |[-> |Hc]%elem_of_cons]%elem_of_cons;
      [eexists; reflexivity|eexists; reflexivity|by apply elem_of_nil in Hc].
  - exists (mkCoordinates 0 0 0). eexists. split; [left|]. split; [reflexivity|reflexivity].
Defined.

End PlotMore.

(** ** More on the settlement *)
Module SettlementMoreFacts.

Import Simulation Towns SettlementMore.

(** *** The yearly update *)

Lemma fill_houses_loop_birth_years (villagers available : list nat) (s : Settlement) :
  birth_year <$> inhabitants (fill_houses_loop villagers available s)
  = birth_year <$> inhabitants s.
Proof.
  revert available s.
  induction villagers as [|v vs IH]; intros available s; cbn [fill_houses_loop]; [done|].
  destruct (pop available) as [[rest ref]|]; [|done].
  rewrite IH. unfold add_inhabitant. simpl. rewrite <- list_fmap_compose.
  apply list_fmap_ext. intros _ u _. simpl. by case_decide.
Qed.

Lemma fill_work_places_loop_birth_years (villagers available : list nat) (s : Settlement) :
  birth_year <$> inhabitants (fill_work_places_loop villagers available s)
  = birth_year <$> inhabitants s.
Proof.
  revert available s.
  induction villagers as [|v vs IH]; intros available s; cbn [fill_work_places_loop]; [done|].
  destruct (pop available) as [[rest ref]|]; [|done].
  rewrite IH. unfold add_worker. simpl. rewrite <- list_fmap_compose.
  apply list_fmap_ext. intros _ u _. simpl. by case_decide.
Qed.

Lemma population_update (s : Settlement) (year : Z) :
  population (update s year) = population s + Z.of_nat (Z.to_nat (births s)).
Proof.
  destruct (SettlementFacts.update_keeps s year) as [Hv _].
  unfold population, len.
  rewrite <- (length_fmap vid (inhabitants (update s year))), Hv,
    SettlementFacts.update_resources_inhabitants, length_fmap, length_app.
  unfold newborns. rewrite length_fmap, length_seq. lia.
Qed.

(** X15.  After [update] the food stock is the food of the year left once
    everyone has eaten, [food_available + food_production - population],
    or 0 when that is negative: it is never negative, and the villagers born
    in the year take no food from it. *)
Theorem update_food_stock (s : Settlement) (year : Z) :
  food_available (update s year)
  = Z.max 0 (food_available s + food_production s - population s).
Proof.
  destruct (SettlementFacts.update_keeps s year) as [_ ->].
  rewrite SettlementFacts.update_resources_food.
  destruct (Z.leb_spec (population s) (food_available s + food_production s)); lia.
Qed.

(** X16.  The growth of a year is bounded: [update] adds at most half the
    population, never takes the population above the number of beds (unless
    it already was), and adds no more villagers than the food left after
    feeding everyone twice. *)
Theorem update_growth_bounded (s : Settlement) (year : Z) :
  population s <= population (update s year) <= population s + population s `div` 2 /\
  population (update s year) <= Z.max (population s) (number_of_beds s) /\
  population (update s year) - population s
  <= Z.max 0 (food_available s + food_production s - 2 * population s).
Proof.
  rewrite population_update.
  assert (Hhalf : 0 <= population s `div` 2).
  { apply Z.div_pos; [unfold population, len|]; lia. }
  unfold births.
  destruct (Z.leb_spec (population s) (food_available s + food_production s));
    destruct (Z.leb_spec (population s) (number_of_beds s)); lia.
Qed.

(** X17.  The villagers [update] adds are dated to the year of the call, and they
    come after the earlier villagers, whose birth years are unchanged. *)
Theorem update_newborns_dated (s : Settlement) (year : Z) :
  exists k : nat,
    birth_year <$> inhabitants (update s year)
    = (birth_year <$> inhabitants s) ++ replicate k year /\
    Z.of_nat k = population (update s year) - population s.
Proof.
  exists (Z.to_nat (births s)). split; [|rewrite population_update; lia].
  unfold update, fill_work_places, fill_houses.
  rewrite fill_work_places_loop_birth_years, fill_houses_loop_birth_years,
    SettlementFacts.update_resources_inhabitants, fmap_app.
  f_equal. unfold newborns. rewrite <- list_fmap_compose.
  generalize (next_vid s). induction (Z.to_nat (births s)) as [|n IH]; intros m; [done|].
  simpl. f_equal. apply IH.
Qed.

(** *** Housing assignment *)

Lemma settled_from_refl (b : Building) : settled_from b b.
Proof. unfold settled_from. repeat split; try done. lia. Qed.

Lemma settled_from_move_in (b0 b : Building) (v : nat) :
  settled_from b0 b -> has_empty_beds b = true ->
  settled_from b0 (with_building_inhabitants b (building_inhabitants b ++ [v])).
Proof.
  unfold settled_from, has_empty_beds.
  intros (Hn & Hk & Hp & Hr & He & Hw & Hpre & Hlen) Hfree%Z.ltb_lt.
  simpl. repeat split; try done.
  - by apply prefix_app_r.
  - unfold len in *. rewrite length_app. simpl. rewrite Hp in Hfree. lia.
Qed.

(** The loop of [__fill_houses], from any point on at which [available]
    lists buildings with free beds in chronology order. *)
Lemma fill_houses_loop_settles (chron0 : list Building) (villagers available : list nat)
  (s : Settlement) :
  StronglySorted lt available ->
  (forall j, j ∈ available -> test_at has_empty_beds (chronology s) j = true) ->
  (forall j b0, chron0 !! j = Some b0 ->
     exists b, chronology s !! j = Some b /\ settled_from b0 b) ->
  (forall j b0, chron0 !! j = Some b0 ->
     exists b, chronology (fill_houses_loop villagers available s) !! j = Some b /\
               settled_from b0 b) /\
  length (chronology (fill_houses_loop villagers available s)) = length (chronology s) /\
  (housing_consistent s -> housing_consistent (fill_houses_loop villagers available s)).
Proof.
  revert available s.
  induction villagers as [|v vs IH]; intros available s Hsorted Hfree Hsettled;
    cbn [fill_houses_loop]; [done|].
  destruct (pop available) as [[rest ref]|] eqn:Hpop; [|done].
  apply SettlementFacts.pop_Some in Hpop. subst available.
  destruct (SettlementFacts.increasing_snoc rest ref Hsorted) as [Hrest Hbelow].
  assert (Href : test_at has_empty_beds (chronology s) ref = true).
  { apply Hfree. apply elem_of_app. right. left. }
  unfold test_at in Href. destruct (chronology s !! ref) as [bref|] eqn:Hbref; [|done].
  match goal with
  | |- context [fill_houses_loop vs ?a ?t] => destruct (IH a t) as (H1 & H2 & H3)
  end.
  - unfold append. by destruct (test_at _ _ ref).
  - intros j Hj. destruct (decide (ref = j)) as [<- |Hne].
    + destruct (test_at has_empty_beds _ ref) eqn:E; [done|].
      specialize (Hbelow ref Hj). lia.
    + unfold test_at. rewrite SettlementFacts.add_inhabitant_other by done.
      apply Hfree. unfold append in Hj. destruct (test_at _ _ ref); [done|].
      apply elem_of_app. by left.
  - intros j b0 Hb0. destruct (Hsettled j b0 Hb0) as (b & Hb & HR).
    destruct (decide (ref = j)) as [<- |Hne].
    + rewrite Hbref in Hb. injection Hb as <-.
      exists (with_building_inhabitants bref (building_inhabitants bref ++ [v])).
      split; [|by apply settled_from_move_in].
      unfold add_inhabitant. simpl. by rewrite list_lookup_alter_eq, Hbref.
    + exists b. split; [|done]. by rewrite SettlementFacts.add_inhabitant_other.
  - split; [exact H1|]. split.
    + rewrite H2. unfold add_inhabitant. simpl. apply length_alter.
    + intros Hcons. apply H3. clear H1 H2 H3 IH.
      intros u h Hu Hh. unfold add_inhabitant in Hu. simpl in Hu.
      apply list_elem_of_fmap in Hu as (u0 & -> & Hu0).
      unfold add_inhabitant. simpl.
      case_decide as Hv.
      * simpl in Hh. injection Hh as <-.
        rewrite list_lookup_alter_eq, Hbref. simpl. eexists. split; [done|].
        simpl. apply elem_of_app. right. rewrite Hv. left.
      * destruct (Hcons u0 h Hu0 Hh) as (b & Hb & Hin).
        destruct (decide (ref = h)) as [<- |Hne].
        -- rewrite list_lookup_alter_eq, Hb. simpl. eexists. split; [done|].
           simpl. apply elem_of_app. by left.
        -- rewrite list_lookup_alter_ne by done. by exists b.
Qed.

Lemma refs_where_sound (test : Building -> bool) (chron : list Building) (ref : nat) :
  ref ∈ refs_where test chron -> test_at test chron ref = true.
Proof. unfold refs_where. by intros [? _]%list_elem_of_filter. Qed.

(** X18.  Housing assignment respects the beds: after the pass every building
    of the chronology is still there, in the same place, with the same name,
    properties and workers; its roster of inhabitants is the earlier one
    with the new inhabitants at its end, and it holds no more villagers than
    it has beds (unless it already did before the pass). *)
Theorem fill_houses_respects_beds (s : Settlement) (year : Z) :
  length (chronology (fill_houses s year)) = length (chronology s) /\
  forall j b0, chronology s !! j = Some b0 ->
    exists b, chronology (fill_houses s year) !! j = Some b /\ settled_from b0 b.
Proof.
  unfold fill_houses.
  destruct (fill_houses_loop_settles (chronology s) (vid <$> homeless_villagers s)
              (refs_where has_empty_beds (chronology s)) s) as (H1 & H2 & _).
  - apply SettlementFacts.refs_where_increasing.
  - apply refs_where_sound.
  - intros j b0 Hb0. exists b0. split; [done|apply settled_from_refl].
  - by split.
Qed.

(** Housing assignment keeps the two records of a home in step: if every
    housed villager is on the roster of its house before the pass, the same
    holds after it. *)
Theorem fill_houses_keeps_rosters_consistent (s : Settlement) (year : Z) :
  housing_consistent s -> housing_consistent (fill_houses s year).
Proof.
  unfold fill_houses.
  destruct (fill_houses_loop_settles (chronology s) (vid <$> homeless_villagers s)
              (refs_where has_empty_beds (chronology s)) s) as (_ & _ & H3).
  - apply SettlementFacts.refs_where_increasing.
  - apply refs_where_sound.
  - intros j b0 Hb0. exists b0. split; [done|apply settled_from_refl].
  - exact H3.
Qed.

Lemma fill_houses_keeps_rosters_consistent_witness :
  housing_consistent (fill_houses street 1).
Proof.
  apply (fill_houses_keeps_rosters_consistent street 1).
  intros u h Hu Hh. unfold street, villagers in Hu. simpl in Hu.
  apply elem_of_cons in Hu as [-> |Hu]; [done|].
  apply elem_of_cons in Hu as [-> |Hu]; [done|].
  by apply elem_of_nil in Hu.
Defined.

Lemma fill_houses_loop_untouched (villagers available : list nat) (s : Settlement)
  (u : Villager) :
  u ∈ inhabitants s -> vid u ∉ villagers ->
  u ∈ inhabitants (fill_houses_loop villagers available s).
Proof.
  revert available s.
  induction villagers as [|v vs IH]; intros available s Hu Hv; cbn [fill_houses_loop];
    [done|].
  destruct (pop available) as [[rest ref]|]; [|done].
  apply not_elem_of_cons in Hv as [Hne Hv].
  apply IH; [|done]. unfold add_inhabitant. simpl.
  apply list_elem_of_fmap. exists u. split; [|done]. by case_decide.
Qed.

Lemma same_vid_same_villager (l : list Villager) (u u' : Villager) :
  NoDup (vid <$> l) -> u ∈ l -> u' ∈ l -> vid u = vid u' -> u = u'.
Proof.
  induction l as [|a l IH]; intros Hnd Hu Hu' Heq; [by apply elem_of_nil in Hu|].
  rewrite fmap_cons in Hnd. apply NoDup_cons in Hnd as [Ha Hnd].
  apply elem_of_cons in Hu as [-> |Hu]; apply elem_of_cons in Hu' as [-> |Hu']; [done| | |eauto].
  - exfalso. apply Ha. rewrite Heq. by apply list_elem_of_fmap_2.
  - exfalso. apply Ha. rewrite <- Heq. by apply list_elem_of_fmap_2.
Qed.

(** X19.  Housing assignment only touches homeless villagers: when the
    villagers of the roster are distinct, a villager who has a house before
    the pass is on the roster after it exactly as before, with the same
    house and the same work place. *)
Theorem fill_houses_keeps_housed (s : Settlement) (year : Z) (u : Villager) :
  NoDup (vid <$> inhabitants s) ->
  u ∈ inhabitants s ->
  house u <> None ->
  u ∈ inhabitants (fill_houses s year).
Proof.
  intros Hnd Hu Hhoused. unfold fill_houses. apply fill_houses_loop_untouched; [done|].
  intros (u' & Heq & Hu')%list_elem_of_fmap.
  unfold homeless_villagers in Hu'. apply list_elem_of_filter in Hu' as [Hnone Hu'].
  assert (u = u') by (by eapply same_vid_same_villager). by subst u'.
Qed.

Lemma fill_houses_keeps_housed_witness :
  mkVillager 0 0 (Some 0%nat) None ∈ inhabitants (fill_houses MoreTowns.village 1).
Proof.
  apply (fill_houses_keeps_housed MoreTowns.village 1 (mkVillager 0 0 (Some 0%nat) None)).
  - simpl. apply NoDup_cons. split; [|apply NoDup_singleton].
    intros Hin%list_elem_of_singleton. discriminate.
  - left.
  - discriminate.
Defined.

(** *** Job assignment *)

Lemma add_worker_other (s : Settlement) (ref villager j : nat) :
  ref <> j -> chronology (add_worker s ref villager) !! j = chronology s !! j.
Proof. intros Hne. unfold add_worker. simpl. by apply list_lookup_alter_ne. Qed.

Lemma add_worker_work (s : Settlement) (ref villager : nat) (u : Villager) :
  u ∈ inhabitants (add_worker s ref villager) ->
  work_place u = None ->
  u ∈ inhabitants s /\ vid u <> villager.
Proof.
  unfold add_worker. simpl. intros (u0 & -> & Hu0)%list_elem_of_fmap.
  case_decide; [done|]. intros _. done.
Qed.

(** The loop of [__fill_work_places], from any point on at which
    [available] lists, in chronology order, every building that still offers
    work, only the last of them having received anyone so far. *)
Lemma fill_work_places_loop_order (chron0 : list Building) (villagers available : list nat)
  (s : Settlement) :
  StronglySorted lt available ->
  (forall j, j ∉ available -> test_at can_offer_work (chronology s) j = false) ->
  (forall i, chronology s !! i <> chron0 !! i -> forall j, j ∈ available -> (j <= i)%nat) ->
  (forall u, u ∈ inhabitants s -> work_place u = None -> vid u ∈ villagers) ->
  let s' := fill_work_places_loop villagers available s in
  (forall i j, (i < j)%nat -> chronology s' !! i <> chron0 !! i ->
               test_at can_offer_work (chronology s') j = false) /\
  ((forall u, u ∈ inhabitants s' -> work_place u <> None) \/
   (forall j, test_at can_offer_work (chronology s') j = false)).
Proof.
  revert available s.
  induction villagers as [|v vs IH]; intros available s Hsorted Hfull Hlast Hhomeless;
    cbn [fill_work_places_loop].
  - split.
    + intros i j Hij Hchanged. apply Hfull. intros Hj.
      specialize (Hlast i Hchanged j Hj). lia.
    + left. intros u Hu Hnone. specialize (Hhomeless u Hu Hnone).
      by apply elem_of_nil in Hhomeless.
  - destruct (pop available) as [[rest ref]|] eqn:Hpop.
    + apply SettlementFacts.pop_Some in Hpop. subst available.
      destruct (SettlementFacts.increasing_snoc rest ref Hsorted) as [Hrest Hbelow].
      apply IH.
      * unfold append. by destruct (test_at _ _ ref).
      * intros j Hj. destruct (decide (ref = j)) as [<- |Hne].
        -- destruct (test_at can_offer_work _ ref) eqn:E; [|done].
           exfalso. apply Hj. unfold append. apply elem_of_app. right. by left.
        -- unfold test_at. rewrite add_worker_other by done. apply Hfull.
           intros [Hin|Hin%list_elem_of_singleton]%elem_of_app; [|done].
           apply Hj. unfold append. destruct (test_at _ _ ref); [|done].
           apply elem_of_app. by left.
      * intros i Hchanged j Hj.
        assert (Hj' : j ∈ rest ++ [ref]).
        { unfold append in Hj. destruct (test_at _ _ ref); [done|].
          apply elem_of_app. by left. }
        destruct (decide (ref = i)) as [<- |Hne].
        -- apply elem_of_app in Hj' as [Hin|Hin%list_elem_of_singleton]; [|lia].
           specialize (Hbelow j Hin). lia.
        -- rewrite add_worker_other in Hchanged by done. by eapply Hlast.
      * intros u Hu Hnone. destruct (add_worker_work s ref v u Hu Hnone) as [Hu' Hne].
        specialize (Hhomeless u Hu' Hnone).
        by apply elem_of_cons in Hhomeless as [?|?].
    + apply SettlementFacts.pop_None in Hpop. subst available. split.
      * intros i j Hij Hchanged. apply Hfull. apply not_elem_of_nil.
      * right. intros j. apply Hfull. apply not_elem_of_nil.
Qed.

(** X20.  Job assignment works like housing assignment, on the buildings that
    offer work and the villagers without a work place: the last-built
    building is served first, a building receives a worker only when every
    building built after it offers no more work; and after the pass no
    villager is without work or no building offers any. *)
Theorem fill_work_places_last_built_first (s : Settlement) (year : Z) :
  let s' := fill_work_places s year in
  (forall i j, (i < j)%nat -> chronology s' !! i <> chronology s !! i ->
               test_at can_offer_work (chronology s') j = false) /\
  ((forall u, u ∈ inhabitants s' -> work_place u <> None) \/
   (forall j, test_at can_offer_work (chronology s') j = false)).
Proof.
  unfold fill_work_places. apply fill_work_places_loop_order.
  - apply SettlementFacts.refs_where_increasing.
  - apply SettlementFacts.refs_where_complete.
  - intros i Hchanged. done.
  - intros u Hu Hnone. apply list_elem_of_fmap. exists u. split; [done|].
    unfold inactive_villagers. by apply list_elem_of_filter.
Qed.

Lemma fill_work_places_last_built_first_witness :
  (forall i j, (i < j)%nat ->
     chronology (fill_work_places MoreTowns.village 1) !! i
     <> chronology MoreTowns.village !! i ->
     test_at can_offer_work (chronology (fill_work_places MoreTowns.village 1)) j = false) /\
  ((forall u, u ∈ inhabitants (fill_work_places MoreTowns.village 1) -> work_place u <> None) \/
   (forall j, test_at can_offer_work (chronology (fill_work_places MoreTowns.village 1)) j
              = false)).
Proof. apply (fill_work_places_last_built_first MoreTowns.village 1). Defined.

(** *** [add_building] and [build] *)

Section Building.

Variable SubPlot : Type.
Variable get_subplot :
  ConstructionPlot -> Building -> Z -> option Z -> list Building ->
  ConstructionPlot * option SubPlot.
Variable construct : ConstructionPlot -> Building -> SubPlot -> ConstructionPlot * Building.
Variable compute_roads :
  ConstructionPlot -> Coordinates -> Coordinates -> ConstructionPlot * bool.

Lemma getitem_last {A : Type} (l : list A) (a : A) : getitem (l ++ [a]) (-1) = Ok a.
Proof.
  unfold getitem, len. rewrite length_app. simpl.
  destruct (Z.leb_spec (- Z.of_nat (length l + 1)) (-1)); [|lia]. simpl.
  replace (Z.to_nat (Z.of_nat (length l + 1) + -1)) with (length l + 0)%nat by lia.
  by rewrite lookup_app_r, Nat.add_0_r, Nat.sub_diag by lia.
Qed.

Lemma road_loop_total (chron : list Building) (last : Building) (n : nat) (i : Z)
  (cp : ConstructionPlot) :
  0 <= i -> i + Z.of_nat n <= len (chron ++ [last]) ->
  exists cp', road_loop compute_roads n i (chron ++ [last]) cp = Ok cp'.
Proof.
  revert i cp. induction n as [|n IH]; intros i cp Hi Hn; cbn [road_loop]; [eauto|].
  destruct (PlotFacts.getitem_valid (chron ++ [last]) i) as (first & -> & _); [lia|].
  cbn [bind]. rewrite getitem_last. cbn [bind].
  destruct (compute_roads cp (entrance last) (entrance first)) as [cp' road_done].
  destruct road_done; [eauto|]. apply IH; lia.
Qed.

(** What [build] leaves behind when it returns. *)
Lemma build_effect (s s' : Settlement) (building : Building) (sub : SubPlot) :
  build SubPlot construct compute_roads s building sub = Ok s' ->
  let built := (construct (plot s) building sub).2 in
  chronology s' = chronology s ++ [built] /\
  buildings s'
  = <[name built := default [] (buildings s !! name built) ++ [length (chronology s)]]>
      (buildings s) /\
  counter s' = counter s /\
  inhabitants s' = inhabitants s /\
  food_available s' = food_available s.
Proof.
  unfold build.
  assert (Hplot : plot match kind building with
                       | Graveyard => with_monuments s (Some (length (chronology s)))
                                        (wedding_totem s)
                       | WeddingTotem => with_monuments s (graveyard s)
                                           (Some (length (chronology s)))
                       | Regular => s
                       end = plot s) by (by destruct (kind building)).
  rewrite Hplot. destruct (construct (plot s) building sub) as [cp built]. cbn [snd].
  cbn [chronology with_chronology with_plot with_buildings buildings].
  assert (Hsame : forall t, t = match kind building with
                       | Graveyard => with_monuments s (Some (length (chronology s)))
                                        (wedding_totem s)
                       | WeddingTotem => with_monuments s (graveyard s)
                                           (Some (length (chronology s)))
                       | Regular => s
                       end ->
            chronology t = chronology s /\ buildings t = buildings s /\
            counter t = counter s /\ inhabitants t = inhabitants s /\
            food_available t = food_available s).
  { intros t ->. by destruct (kind building). }
  destruct (Hsame _ eq_refl) as (Hc & Hb & Hk & Hi & Hf).
  rewrite Hc, Hb. unfold append. rewrite getitem_last. cbn [bind].
  destruct (_ && _).
  - destruct (road_loop _ _ _ _ _) as [cp'|e]; [|done]. cbn [bind].
    intros [= <-]. simpl. by rewrite Hk, Hi, Hf.
  - intros [= <-]. simpl. by rewrite Hk, Hi, Hf.
Qed.

(** [build] returns when there are at least as many buildings as names. *)
Lemma build_total (s : Settlement) (building : Building) (sub : SubPlot) :
  (base.size (buildings s) <= length (chronology s))%nat ->
  exists s', build SubPlot construct compute_roads s building sub = Ok s'.
Proof.
  intros Hsize. unfold build.
  assert (Hsame : forall t, t = match kind building with
                       | Graveyard => with_monuments s (Some (length (chronology s)))
                                        (wedding_totem s)
                       | WeddingTotem => with_monuments s (graveyard s)
                                           (Some (length (chronology s)))
                       | Regular => s
                       end ->
            chronology t = chronology s /\ buildings t = buildings s).
  { intros t ->. by destruct (kind building). }
  destruct (Hsame _ eq_refl) as (Hc & Hb).
  destruct (construct _ building sub) as [cp built].
  cbn [chronology with_chronology with_plot with_buildings buildings plot].
  rewrite Hc, Hb. unfold append. rewrite getitem_last. cbn [bind].
  destruct (_ && _); [|eauto].
  match goal with
  | |- context [road_loop _ ?n ?i ?c ?q] =>
      destruct (road_loop_total (chronology s) built n i q) as [cp' ->]
  end; [lia| |cbn [bind]; eauto].
  unfold len. rewrite length_app. simpl.
  rewrite map_size_insert.
  destruct (buildings s !! name built); simpl; lia.
Qed.

(** After a successful search and [build], the counter is raised under the
    name of the building as built. *)
Lemma add_building_found (s sb : Settlement) (building : Building) (max_score : option Z)
  (cp : ConstructionPlot) (sub : SubPlot) :
  get_subplot (plot s) building (rotation building) max_score (chronology s) = (cp, Some sub) ->
  build SubPlot construct compute_roads (with_plot s cp) building sub = Ok sb ->
  let built := (construct cp building sub).2 in
  add_building SubPlot get_subplot construct compute_roads s building max_score
  = Ok (with_counter sb
          (<[name built := default 0 (counter sb !! name built) + 1]> (counter sb)),
        true).
Proof.
  intros Hfound Hsb built. unfold add_building. rewrite Hfound, Hsb. cbn [bind].
  apply build_effect in Hsb as (Hc & _). cbn [plot with_plot chronology] in Hc.
  rewrite Hc, getitem_last. done.
Qed.

Lemma add_building_true (s s' : Settlement) (building : Building) (max_score : option Z) :
  add_building SubPlot get_subplot construct compute_roads s building max_score
  = Ok (s', true) ->
  exists cp sub sb,
    get_subplot (plot s) building (rotation building) max_score (chronology s)
    = (cp, Some sub) /\
    build SubPlot construct compute_roads (with_plot s cp) building sub = Ok sb /\
    s' = with_counter sb
           (<[name (construct cp building sub).2
              := default 0 (counter sb !! name (construct cp building sub).2) + 1]>
              (counter sb)).
Proof.
  intros Hadd.
  destruct (get_subplot (plot s) building (rotation building) max_score (chronology s))
    as [cp [sub|]] eqn:Hfound.
  - destruct (build SubPlot construct compute_roads (with_plot s cp) building sub)
      as [sb|e] eqn:Hbuild.
    + rewrite (add_building_found s sb building max_score cp sub Hfound Hbuild) in Hadd.
      injection Hadd as <-. by exists cp, sub, sb.
    + unfold add_building in Hadd. by rewrite Hfound, Hbuild in Hadd.
  - unfold add_building in Hadd. by rewrite Hfound in Hadd.
Qed.

End Building.

(** X21.  When the placement search finds a spot and the settlement has at least
    as many buildings as names, [add_building] returns [True]: the building
    as constructed is the new last entry of the chronology, it is the new
    last entry of the list kept under its name, its counter is one higher,
    and the roster and the food stock are untouched. *)
Theorem add_building_builds (SubPlot : Type)
  (get_subplot : ConstructionPlot -> Building -> Z -> option Z -> list Building ->
                 ConstructionPlot * option SubPlot)
  (construct : ConstructionPlot -> Building -> SubPlot -> ConstructionPlot * Building)
  (compute_roads : ConstructionPlot -> Coordinates -> Coordinates -> ConstructionPlot * bool)
  (s : Settlement) (building : Building) (max_score : option Z)
  (cp : ConstructionPlot) (sub : SubPlot) :
  get_subplot (plot s) building (rotation building) max_score (chronology s) = (cp, Some sub) ->
  (base.size (buildings s) <= length (chronology s))%nat ->
  name (construct cp building sub).2 = name building ->
  exists s',
    add_building SubPlot get_subplot construct compute_roads s building max_score
    = Ok (s', true) /\
    chronology s' = chronology s ++ [(construct cp building sub).2] /\
    buildings s' !! name building
    = Some (default [] (buildings s !! name building) ++ [length (chronology s)]) /\
    counter s' !! name building = Some (default 0 (counter s !! name building) + 1) /\
    inhabitants s' = inhabitants s /\
    food_available s' = food_available s.
Proof.
  intros Hfound Hsize Hname.
  destruct (build_total SubPlot construct compute_roads (with_plot s cp) building sub Hsize)
    as [sb Hsb].
  rewrite (add_building_found SubPlot get_subplot construct compute_roads
             s sb building max_score cp sub Hfound Hsb).
  apply build_effect in Hsb. cbn [plot with_plot] in Hsb.
  destruct Hsb as (Hc & Hb & Hk & Hi & Hf).
  eexists. split; [reflexivity|]. cbn [chronology buildings counter inhabitants
    food_available with_counter].
  rewrite Hc, Hb, Hk, Hi, Hf, Hname. simpl.
  by rewrite !lookup_insert_eq.
Qed.

Lemma add_building_builds_witness :
  exists s',
    add_building Coordinates (search_on Samples.lawn_world) construct_on roads_on
      MoreTowns.village (house_of 4 0) None
    = Ok (s', true) /\
    chronology s' = chronology MoreTowns.village
        ++ [(construct_on (_build_foundation_blocks Samples.lawn_world (plot MoreTowns.village))
               (house_of 4 0) (mkCoordinates 0 0 0)).2] /\
    buildings s' !! name (house_of 4 0)
    = Some (default [] (buildings MoreTowns.village !! name (house_of 4 0))
            ++ [length (chronology MoreTowns.village)]) /\
    counter s' !! name (house_of 4 0)
    = Some (default 0 (counter MoreTowns.village !! name (house_of 4 0)) + 1) /\
    inhabitants s' = inhabitants MoreTowns.village /\
    food_available s' = food_available MoreTowns.village.
Proof.
  apply (add_building_builds Coordinates (search_on Samples.lawn_world) construct_on roads_on
           MoreTowns.village (house_of 4 0) None
           (_build_foundation_blocks Samples.lawn_world (plot MoreTowns.village))
           (mkCoordinates 0 0 0)).
  - reflexivity.
  - vm_compute. lia.
  - reflexivity.
Defined.

(** X22.  A building that is an extension, or whose name is the only one the
    settlement knows, gets no road: [build] returns with the plot exactly as
    the construction left it. *)
Theorem build_without_road (SubPlot : Type)
  (construct : ConstructionPlot -> Building -> SubPlot -> ConstructionPlot * Building)
  (compute_roads : ConstructionPlot -> Coordinates -> Coordinates -> ConstructionPlot * bool)
  (s : Settlement) (building : Building) (sub : SubPlot) :
  let built := (construct (plot s) building sub).2 in
  Props.is_extension (properties built) = true \/
  (forall k, is_Some (buildings s !! k) -> k = name built) ->
  exists s',
    build SubPlot construct compute_roads s building sub = Ok s' /\
    plot s' = (construct (plot s) building sub).1.
Proof.
  intros built Hcase. unfold build.
  assert (Hsame : forall t, t = match kind building with
                       | Graveyard => with_monuments s (Some (length (chronology s)))
                                        (wedding_totem s)
                       | WeddingTotem => with_monuments s (graveyard s)
                                           (Some (length (chronology s)))
                       | Regular => s
                       end ->
            chronology t = chronology s /\ buildings t = buildings s /\ plot t = plot s).
  { intros t ->. by destruct (kind building). }
  destruct (Hsame _ eq_refl) as (Hc & Hb & Hp). rewrite Hp.
  unfold built in Hcase. destruct (construct (plot s) building sub) as [cp b].
  cbn [fst snd] in *.
  cbn [chronology with_chronology with_plot with_buildings buildings plot].
  rewrite Hc, Hb. unfold append. rewrite getitem_last. cbn [bind].
  assert (Hno : (1 <? Z.of_nat (base.size
                     (<[name b := default [] (buildings s !! name b)
                                   ++ [length (chronology s)]]> (buildings s))))
                && negb (Props.is_extension (properties b)) = false).
  { destruct Hcase as [-> |Honly]; [by rewrite andb_false_r|].
    apply andb_false_iff. left. apply Z.ltb_ge.
    assert (Hone : <[name b := default [] (buildings s !! name b)
                                ++ [length (chronology s)]]> (buildings s)
                   = {[ name b := default [] (buildings s !! name b)
                                   ++ [length (chronology s)] ]}).
    { apply map_eq. intros k. destruct (decide (k = name b)) as [-> |Hne].
      - by rewrite lookup_insert_eq, lookup_singleton_eq.
      - rewrite lookup_insert_ne, lookup_singleton_ne by done.
        destruct (buildings s !! k) eqn:Hk; [|done].
        exfalso. apply Hne, Honly. by rewrite Hk. }
    rewrite Hone, map_size_singleton. lia. }
  rewrite Hno. eexists. split; [reflexivity|]. done.
Qed.

Lemma build_without_road_witness :
  exists s',
    build Coordinates construct_on roads_on town (house_of 4 0) (mkCoordinates 0 0 0) = Ok s' /\
    plot s' = (construct_on (plot town) (house_of 4 0) (mkCoordinates 0 0 0)).1.
Proof.
  apply (build_without_road Coordinates construct_on roads_on town (house_of 4 0)
           (mkCoordinates 0 0 0)).
  right. intros k [l Hk]. unfold town in Hk. simpl in Hk.
  by rewrite lookup_empty in Hk.
Defined.

(** *** The catalogue *)

(** X23.  [is_building_constructible] answers [True] only for an entry that
    costs no more than the number of workers, whose type is not
    'DECORATION', and whose count of built buildings is below its maximum
    (1 when the entry names none); it raises [KeyError] exactly when an
    affordable entry has no 'type'. *)
Theorem is_building_constructible_sound (s : Settlement) (name : string)
  (data : BuildingData) :
  (is_building_constructible s name data = Ok true <->
   default 0 (data_cost data) <= worker_number s /\
   (exists type, data_type data = Some type /\ type <> "DECORATION"%string) /\
   default 0 (counter s !! name) < default 1 (data_maximum data)) /\
  (is_building_constructible s name data = Raise KeyError <->
   default 0 (data_cost data) <= worker_number s /\ data_type data = None).
Proof.
  unfold is_building_constructible.
  destruct (Z.leb_spec (default 0 (data_cost data)) (worker_number s)) as [Hcost|Hcost].
  - destruct (data_type data) as [type|].
    + case_bool_decide as Htype.
      * split; split.
        -- intros [= Hlt%Z.ltb_lt]. split; [done|]. split; [by exists type|done].
        -- intros (_ & _ & Hlt). f_equal. by apply Z.ltb_lt.
        -- done.
        -- intros [_ ?]. done.
      * split; split; try done.
        -- intros (_ & (type' & [= <-] & Hne) & _). done.
        -- intros [_ ?]. done.
    + split; split; try done. intros (_ & (type & ? & _) & _). done.
  - split; split; try done; intros [? _]; lia.
Qed.

(** X24.  Once a building has been built and the count kept under the
    name it was built with has reached the maximum of a catalogue entry (at
    once, when the entry names no maximum), the entry is not constructible
    under that name any more. *)
Theorem built_to_maximum_not_constructible (SubPlot : Type)
  (get_subplot : ConstructionPlot -> Building -> Z -> option Z -> list Building ->
                 ConstructionPlot * option SubPlot)
  (construct : ConstructionPlot -> Building -> SubPlot -> ConstructionPlot * Building)
  (compute_roads : ConstructionPlot -> Coordinates -> Coordinates -> ConstructionPlot * bool)
  (s s' : Settlement) (building built : Building) (max_score : option Z)
  (data : BuildingData) (type : string) :
  add_building SubPlot get_subplot construct compute_roads s building max_score
  = Ok (s', true) ->
  last (chronology s') = Some built ->
  data_type data = Some type ->
  default 1 (data_maximum data) <= default 0 (counter s !! name built) + 1 ->
  is_building_constructible s' (name built) data = Ok false.
Proof.
  intros (cp & sub & sb & _ & Hbuild & ->)%add_building_true Hlast Htype Hmax.
  apply build_effect in Hbuild as (Hc & _ & Hk & _).
  cbn [plot chronology counter with_plot with_counter] in *.
  rewrite Hc, last_snoc in Hlast. injection Hlast as Hlast. rewrite Hlast.
  unfold is_building_constructible. rewrite Htype.
  destruct (_ <=? _); [|done]. case_bool_decide; [|done].
  cbn [counter with_counter]. rewrite lookup_insert_eq, Hk. simpl.
  f_equal. apply Z.ltb_ge. exact Hmax.
Qed.

Lemma built_to_maximum_not_constructible_witness :
  exists s',
    add_building Coordinates (search_on Samples.lawn_world) construct_on roads_on
      town (house_of 4 0) None = Ok (s', true) /\
    is_building_constructible s' (name (house_of 4 0))
      (mkBuildingData (Some 0) (Some "HABITATION"%string) None) = Ok false.
Proof.
  eexists. split; [reflexivity|].
  eapply (built_to_maximum_not_constructible Coordinates (search_on Samples.lawn_world)
            construct_on roads_on town _ (house_of 4 0) (house_of 4 0) None
            (mkBuildingData (Some 0) (Some "HABITATION"%string) None) "HABITATION"%string).
  - reflexivity.
  - reflexivity.
  - reflexivity.
  - simpl. rewrite lookup_empty. simpl. lia.
Defined.

(** *** The mapping protocol *)

(** X25.  Looking a name up that the settlement does not have does not fail: it
    returns an empty list and registers the name, so that [len] grows by
    one while every other name keeps its buildings; deleting the name
    afterwards gives the earlier mapping back. *)
Theorem getitem_missing_registers (s : Settlement) (key : string) :
  buildings s !! key = None ->
  (__getitem__ s key).2 = Several [] /\
  __len__ (__getitem__ s key).1 = __len__ s + 1 /\
  (forall k, k <> key -> buildings (__getitem__ s key).1 !! k = buildings s !! k) /\
  exists s', __delitem__ (__getitem__ s key).1 key = Ok s' /\ buildings s' = buildings s.
Proof.
  intros Hmissing. unfold __getitem__, __len__, __delitem__. rewrite Hmissing.
  cbn [fst snd buildings with_buildings]. repeat split.
  - rewrite map_size_insert_None by done. lia.
  - intros k Hk. by rewrite lookup_insert_ne.
  - rewrite lookup_insert_eq. eexists. split; [reflexivity|].
    cbn [buildings with_buildings]. rewrite delete_insert_eq. by apply delete_id.
Qed.

Lemma getitem_missing_registers_witness :
  (__getitem__ town "Graveyard").2 = Several [] /\
  __len__ (__getitem__ town "Graveyard").1 = __len__ town + 1 /\
  (forall k, k <> "Graveyard"%string ->
     buildings (__getitem__ town "Graveyard").1 !! k = buildings town !! k) /\
  exists s', __delitem__ (__getitem__ town "Graveyard").1 "Graveyard" = Ok s' /\
             buildings s' = buildings town.
Proof.
  apply (getitem_missing_registers town "Graveyard"). reflexivity.
Defined.

(** Deleting a name the settlement does not have raises [KeyError];
    deleting one it has removes that name alone. *)
Theorem delitem_removes_name (s : Settlement) (key : string) :
  (buildings s !! key = None -> __delitem__ s key = Raise KeyError) /\
  (is_Some (buildings s !! key) ->
   exists s', __delitem__ s key = Ok s' /\
     buildings s' !! key = None /\
     (forall k, k <> key -> buildings s' !! k = buildings s !! k) /\
     __len__ s' = __len__ s - 1 /\
     chronology s' = chronology s).
Proof.
  unfold __delitem__, __len__. split.
  - by intros ->.
  - intros [refs Hrefs]. rewrite Hrefs. eexists. split; [reflexivity|].
    cbn [buildings with_buildings chronology with_buildings]. repeat split.
    + apply lookup_delete_eq.
    + intros k Hk. by apply lookup_delete_ne.
    + rewrite map_size_delete_Some by (by rewrite Hrefs).
      assert (base.size (buildings s) <> 0%nat); [|lia].
      intros Hzero%map_size_empty_inv. rewrite Hzero in Hrefs.
      by rewrite lookup_empty in Hrefs.
Qed.

(** X26.  After a successful [add_building], looking the building's name up
    gives the building just built when it is the first of its name, and the
    list of all buildings of that name, the new one last, otherwise; the new
    building is the last entry of the chronology, and the lookup changes
    nothing. *)
Theorem getitem_after_add_building (SubPlot : Type)
  (get_subplot : ConstructionPlot -> Building -> Z -> option Z -> list Building ->
                 ConstructionPlot * option SubPlot)
  (construct : ConstructionPlot -> Building -> SubPlot -> ConstructionPlot * Building)
  (compute_roads : ConstructionPlot -> Coordinates -> Coordinates -> ConstructionPlot * bool)
  (s s' : Settlement) (building : Building) (max_score : option Z) :
  add_building SubPlot get_subplot construct compute_roads s building max_score
  = Ok (s', true) ->
  (forall cp sub, name (construct cp building sub).2 = name building) ->
  let ref := length (chronology s) in
  __getitem__ s' (name building)
  = (s', match default [] (buildings s !! name building) with
         | [] => Single ref
         | earlier => Several (earlier ++ [ref])
         end) /\
  exists built, chronology s' !! ref = Some built /\ name built = name building.
Proof.
  intros (cp & sub & sb & _ & Hbuild & ->)%add_building_true Hname.
  apply build_effect in Hbuild as (Hc & Hb & _). cbn [plot chronology buildings with_plot] in *.
  rewrite Hname in Hb.
  unfold __getitem__. cbn [buildings with_counter chronology]. rewrite Hb, Hc.
  rewrite lookup_insert_eq. split.
  - f_equal. destruct (default [] (buildings s !! name building)) as [|a [|a' l]]; done.
  - eexists. split; [|apply Hname].
    by rewrite lookup_app_r, Nat.sub_diag by lia.
Qed.

Lemma getitem_after_add_building_witness :
  exists s',
    add_building Coordinates (search_on Samples.lawn_world) construct_on roads_on
      MoreTowns.village (house_of 4 0) None = Ok (s', true) /\
    __getitem__ s' "house" = (s', Several [0; 2]%nat).
Proof.
  eexists. split; [reflexivity|].
  eapply (getitem_after_add_building Coordinates (search_on Samples.lawn_world)
            construct_on roads_on MoreTowns.village _ (house_of 4 0) None).
  - reflexivity.
  - reflexivity.
Defined.

(** *** Deaths *)

Lemma remove_villager_Some (villager : nat) (l r : list Villager) :
  remove_villager villager l = Some r ->
  exists l1 v l2, l = l1 ++ v :: l2 /\ r = l1 ++ l2 /\ vid v = villager /\
                  villager ∉ vid <$> l1.
Proof.
  revert r. induction l as [|a l IH]; intros r; simpl; [done|].
  case_decide as Ha.
  - intros [= <-]. exists [], a, l. repeat split; [done|]. apply not_elem_of_nil.
  - destruct (remove_villager villager l) as [r'|]; [|done]. intros [= <-].
    destruct (IH r' eq_refl) as (l1 & v & l2 & -> & -> & Hv & Hnot).
    exists (a :: l1), v, l2. repeat split; [done|].
    change (villager ∉ vid a :: (vid <$> l1)). apply not_elem_of_cons. by split.
Qed.

Lemma remove_villager_None (villager : nat) (l : list Villager) :
  remove_villager villager l = None <-> villager ∉ vid <$> l.
Proof.
  induction l as [|a l IH]; simpl.
  - split; [intros _; apply not_elem_of_nil|done].
  - change (vid <$> a :: l) with (vid a :: (vid <$> l)).
    rewrite not_elem_of_cons. case_decide as Ha.
    + split; [done|]. intros [Hne _]. by subst.
    + destruct (remove_villager villager l); split; try done.
      * intros [_ H]. by apply IH in H.
      * intros _. split; [done|]. by apply IH.
Qed.

(** X27.  [villager_die] takes exactly one villager off the roster, the first
    one of that identity, and leaves the others in their order; for a
    villager who is not on the roster it raises [ValueError]. *)
Theorem villager_die_removes_one
  (die : list Building -> nat -> Z -> string -> list Building)
  (s : Settlement) (villager : nat) (year : Z) (cause : string) :
  (villager ∈ vid <$> inhabitants s ->
   exists s' l1 v l2,
     villager_die die s villager year cause = Ok s' /\
     inhabitants s = l1 ++ v :: l2 /\ vid v = villager /\ (villager ∉ vid <$> l1) /\
     inhabitants s' = l1 ++ l2 /\
     population s' = population s - 1 /\
     food_available s' = food_available s) /\
  (villager ∉ vid <$> inhabitants s ->
   villager_die die s villager year cause = Raise ValueError).
Proof.
  unfold villager_die. cbn [inhabitants with_chronology]. split.
  - intros Hin. destruct (remove_villager villager (inhabitants s)) as [r|] eqn:Hr.
    + destruct (remove_villager_Some _ _ _ Hr) as (l1 & v & l2 & Hl & -> & Hv & Hnot).
      exists (with_inhabitants
                (with_chronology s (die (chronology s) villager year cause))
                (l1 ++ l2) (next_vid s)), l1, v, l2.
      repeat split; try done.
      unfold population, len. cbn [inhabitants with_inhabitants].
      rewrite Hl, !length_app. simpl. lia.
    + by apply remove_villager_None in Hr.
  - intros Hnot. apply remove_villager_None in Hnot. by rewrite Hnot.
Qed.

End SettlementMoreFacts.

(** ** The structures' cache of variations *)
Module StructureFacts.

Section Cache.

Variable B : Type.
Variable replace_first : B -> list (string * string) -> B.
Local Abbreviation get_variation := (Structures.__get_variation B replace_first).

Lemma get_variation_cached (st : Structures.Structure B) (materials : list (string * string)) :
  Structures.variations B (get_variation st materials).2
  !! Structures.variation_key materials
  = Some (get_variation st materials).1.
Proof.
  unfold Structures.__get_variation.
  destruct (Structures.variations B st !! Structures.variation_key materials) eqn:Hhit;
    cbn [fst snd Structures.variations]; [done|]. apply lookup_insert_eq.
Qed.

Lemma get_variation_hit (st : Structures.Structure B) (materials : list (string * string))
  (cached : list B) :
  Structures.variations B st !! Structures.variation_key materials = Some cached ->
  get_variation st materials = (cached, st).
Proof. intros Hhit. unfold Structures.__get_variation. by rewrite Hhit. Qed.

End Cache.

(** X29.  [get_blocks] never changes a variation that is already cached nor the
    blocks of the structure, and with no materials it leaves the cache
    untouched and returns the structure's own blocks, shifted. *)
Theorem get_blocks_keeps_cache (B : Type) (replace_first : B -> list (string * string) -> B)
  (shift_position_to : B -> Coordinates -> B)
  (st : Structures.Structure B) (build_start : Coordinates)
  (materials : list (string * string)) :
  let st' := (Structures.get_blocks B replace_first shift_position_to st build_start
                materials).2 in
  Structures.blocks B st' = Structures.blocks B st /\
  (forall key cached, Structures.variations B st !! key = Some cached ->
                      Structures.variations B st' !! key = Some cached) /\
  (materials = [] ->
   Structures.get_blocks B replace_first shift_position_to st build_start materials
   = ((fun block => shift_position_to block build_start) <$> Structures.blocks B st, st)).
Proof.
  unfold Structures.get_blocks. destruct materials as [|m materials]; [done|].
  unfold Structures.__get_variation.
  destruct (Structures.variations B st !! Structures.variation_key (m :: materials)) eqn:Hhit;
    cbn [fst snd Structures.blocks Structures.variations]; [done|].
  repeat split; [|done].
  intros key cached Hkey. rewrite lookup_insert_ne; [done|]. intros <-. congruence.
Qed.

(** X30.  The cache is keyed by the description of the materials, not by the
    materials: after a call with some materials, a call with other materials
    of the same description returns the blocks of the first call, not the
    replacement for the materials given. *)
Theorem get_blocks_same_description (B : Type)
  (replace_first : B -> list (string * string) -> B)
  (shift_position_to : B -> Coordinates -> B)
  (st : Structures.Structure B) (build_start : Coordinates)
  (materials others : list (string * string)) :
  materials <> [] -> others <> [] ->
  Structures.variation_key materials = Structures.variation_key others ->
  let first := Structures.get_blocks B replace_first shift_position_to st build_start materials in
  Structures.get_blocks B replace_first shift_position_to first.2 build_start others = first.
Proof.
  intros Hm Ho Hkey. unfold Structures.get_blocks.
  destruct materials as [|m materials]; [done|]. destruct others as [|o others]; [done|].
  pose proof (get_variation_cached B replace_first st (m :: materials)) as Hcached.
  destruct (Structures.__get_variation B replace_first st (m :: materials)) as [bs st1].
  cbn [fst snd] in *. rewrite Hkey in Hcached.
  by rewrite (get_variation_hit B replace_first st1 _ bs Hcached).
Qed.

Lemma get_blocks_same_description_witness :
  let first := Structures.get_blocks string Structures.rename_first Structures.keep_block
                 Structures.hut (mkCoordinates 0 0 0) Structures.one_material in
  Structures.get_blocks string Structures.rename_first Structures.keep_block
    first.2 (mkCoordinates 0 0 0) Structures.two_materials = first.
Proof.
  apply (get_blocks_same_description string Structures.rename_first Structures.keep_block
           Structures.hut (mkCoordinates 0 0 0) Structures.one_material
           Structures.two_materials).
  - discriminate.
  - discriminate.
  - reflexivity.
Defined.

End StructureFacts.
